(** * kf_filter.util: wavenumber-frequency masks

    A shallow embedding of [src/kf_filter/util.py] (the mask builders
    [kf_mask], [wave_mask], [td_mask] and their helpers
    [_wrap_to_xarray], [_nondim_k_omega], [_combine_plus_minus]) and the
    properties the specification states about them; then the regression
    and taper helpers [harmonic_func] and [split_hann_taper], and what
    the code of all of them shows beyond the specification.

    Modelling choices.

    - Numbers.  Every numeric value of the program (array elements and
      the scalar bounds) is an IEEE-754 binary64 value, which is what a
      Python [float] and a numpy [float64] are; they are modelled by
      Rocq's primitive [float], whose operations are the binary64 ones
      (NaN, the infinities and the two zeros included).  Integers
      (wavenumbers, [kmin=-20], the literals [84], [22], ...) are the
      floats of the same value, on which comparison and negation agree
      with the integer ones; [24 * 3600], which Python computes on
      integers, is converted after the product.
    - Arrays.  A raw [np.ndarray] is a one-dimensional list; an
      [xr.DataArray] has named dimensions with their sizes, index
      coordinates, and a value at every position, a position giving an
      index along each dimension name.  Element-wise operations
      broadcast by dimension name: the result lives on the union of the
      dimensions and its value at a position is the operation applied to
      the operands' values at that position.  Operands that share a
      dimension must agree on it: [xr.apply_ufunc], whose join is exact,
      raises when the sizes or the indexes of a shared dimension
      differ.  Arithmetic between two labeled arrays joins the indexes
      instead; what this join gives for operands that disagree is left
      open, as a parameter of [td_mask].
    - Errors.  [assert] and [raise] are results [Raise e]; a function
      that can fail returns in the [result] monad.
    - External collaborators.  [kf_filter.consts] is not part of the
      sources: its constants [g], [radius_earth], [beta] and its
      registry [wave_func] are parameters of the development, and
      [wave_types] is the list the specification gives.
    - numpy.  The helpers work on raw arrays: a vector is a list and a
      matrix the list of its rows.  Allocation, slices with Python's
      resolution of negative and overlong bounds, assignment with
      numpy's broadcasting of a single element, [np.rint] and [int] are
      defined on these; [np.sin], [np.cos] and [np.hanning], which are
      not binary64 operations, are parameters. *)

From Stdlib Require Import List String Ascii ZArith Bool Floats Lia.
Import ListNotations.

Set Implicit Arguments.

(* ================================================================== *)
(** ** Exceptions and results *)

Inductive exception : Type :=
| AssertionError (msg : string)
| ValueError (msg : string)
| TypeError (msg : string)
| KeyError (key : string)
| AlignmentError.   (* xarray's own class, derived from ValueError; its
                       message, which lists the dimensions at fault, is
                       not modelled *)

Inductive result (A : Type) : Type :=
| Return (a : A)
| Raise (e : exception).

Arguments Return {A} a.
Arguments Raise {A} e.

Definition bind {A B : Type} (m : result A) (k : A -> result B) : result B :=
  match m with
  | Return a => k a
  | Raise e => Raise e
  end.

Declare Scope result_scope.
Delimit Scope result_scope with result.
Notation "x <- m ;; k" := (bind m (fun x => k))
  (at level 61, m at next level, right associativity) : result_scope.
Notation "' pat <- m ;; k" := (bind m (fun x => match x with pat => k end))
  (at level 61, pat pattern, m at next level, right associativity) : result_scope.
Notation "m ;;; k" := (bind m (fun _ => k))
  (at level 61, right associativity) : result_scope.

(** [assert cond, msg] *)
Definition assert_ (cond : bool) (msg : string) : result unit :=
  if cond then Return tt else Raise (AssertionError msg).

(** The double-quote character, for the messages that quote a name. *)
Definition dquote : string := String (ascii_of_nat 34) EmptyString.

Definition quoted (s : string) : string := (dquote ++ s ++ dquote)%string.

(* ================================================================== *)
(** ** Floats as Python sees them *)

Module PyFloat.

  (** [x > y] and [x < y] on binary64 values; both are false when an
      operand is NaN. *)
Definition gt (x y : float) : bool := PrimFloat.ltb y x.
Definition lt (x y : float) : bool := PrimFloat.ltb x y.

  (** [np.pi], the binary64 value nearest to pi. *)
Definition pi : float := 0x1.921fb54442d18p+1%float.

  (** A Python [int] converted to a float (exact below [2^53], which
      covers every integer literal of the program). *)
Definition of_int (z : Z) : float :=
    match z with
    | Z0 => PrimFloat.zero
    | Zpos _ => PrimFloat.of_uint63 (Uint63.of_Z z)
    | Zneg p => PrimFloat.opp (PrimFloat.of_uint63 (Uint63.of_Z (Zpos p)))
    end.

End PyFloat.

(** The two comparison operators that are handed to a dispersion
    function, [operator.gt] and [operator.lt]. *)
Inductive comparator : Type := operator_gt | operator_lt.

Definition compare_with (op : comparator) : float -> float -> bool :=
  match op with
  | operator_gt => PyFloat.gt
  | operator_lt => PyFloat.lt
  end.

(* ================================================================== *)
(** ** Arrays *)

(** A position gives an index along every dimension name. *)
Definition position : Type := string -> nat.

Record DataArray (A : Type) : Type := mkDataArray {
  sizes : list (string * nat);            (* dimension names, in order, with lengths *)
  coords : list (string * list float);    (* the index coordinate of a dimension *)
  values : position -> A                  (* the element at a position *)
}.

Definition dims {A : Type} (a : DataArray A) : list string := map fst (sizes a).
Definition shape {A : Type} (a : DataArray A) : list nat := map snd (sizes a).

(** What a program can pass as a coordinate: a raw numpy array or an
    already labeled one ([isinstance(x, xr.DataArray)] is the test on
    the constructor). *)
Inductive array : Type :=
| ndarray (v : list float)
| xarray (d : DataArray float).

Definition is_labeled (a : array) : bool :=
  match a with
  | ndarray _ => false
  | xarray _ => true
  end.

Definition array_shape (a : array) : list nat :=
  match a with
  | ndarray v => [List.length v]
  | xarray d => shape d
  end.

Module xr.

  (** [xr.DataArray(v, coords={name: v})]: one dimension called [name],
      whose index is the array itself. *)
Definition coordinate (name : string) (v : list float) : DataArray float :=
    {| sizes := [(name, List.length v)];
       coords := [(name, v)];
       values := fun p => nth (p name) v PrimFloat.nan |}.

  (** An operation between a labeled array and a scalar. *)
Definition map {A B : Type} (f : A -> B) (a : DataArray A) : DataArray B :=
    {| sizes := sizes a; coords := coords a; values := fun p => f (values a p) |}.

Definition has_key {V : Type} (l : list (string * V)) (k : string) : bool :=
    existsb (String.eqb k) (List.map fst l).

  (** The entries of [l1], then those of [l2] on other dimensions. *)
Definition union {V : Type} (l1 l2 : list (string * V)) : list (string * V) :=
    l1 ++ filter (fun kv => negb (has_key l1 (fst kv))) l2.

  (** An element-wise operation between two labeled arrays, broadcast by
      dimension name. *)
Definition map2 {A B C : Type} (f : A -> B -> C)
      (a : DataArray A) (b : DataArray B) : DataArray C :=
    {| sizes := union (sizes a) (sizes b);
       coords := union (coords a) (coords b);
       values := fun p => f (values a p) (values b p) |}.

  (** [a > s], [a < s] for a scalar [s]. *)
Definition gt (a : DataArray float) (s : float) : DataArray bool :=
    map (fun x => PyFloat.gt x s) a.
Definition lt (a : DataArray float) (s : float) : DataArray bool :=
    map (fun x => PyFloat.lt x s) a.

  (** [s * a], [a - s], [a + s] for a scalar [s], and [a + b]. *)
Definition rmul (s : float) (a : DataArray float) : DataArray float :=
    map (fun x => PrimFloat.mul s x) a.
Definition sub (a : DataArray float) (s : float) : DataArray float :=
    map (fun x => PrimFloat.sub x s) a.
Definition add (a : DataArray float) (s : float) : DataArray float :=
    map (fun x => PrimFloat.add x s) a.

  (** The entry of a dimension in the sizes or the coordinates. *)
Fixpoint lookup {V : Type} (d : string) (l : list (string * V)) : option V :=
    match l with
    | [] => None
    | (d', v) :: l => if String.eqb d d' then Some v else lookup d l
    end.

  (** Labels that an index takes as equal: equal numbers, or two NaN. *)
Definition same_label (x y : float) : bool :=
    PrimFloat.eqb x y || (PrimFloat.is_nan x && PrimFloat.is_nan y).

  (** Two indexes are equal: the same length and equal labels. *)
Fixpoint index_equal (i j : list float) : bool :=
    match i, j with
    | [], [] => true
    | x :: i, y :: j => same_label x y && index_equal i j
    | _, _ => false
    end.

Definition agree {V : Type} (same : V -> V -> bool) (l1 l2 : list (string * V)) : bool :=
    forallb (fun d => match lookup d l1, lookup d l2 with
                      | Some u, Some v => same u v
                      | _, _ => true
                      end)
            (List.map fst l1).

  (** Two arrays need no alignment: on every dimension they share they
      have the same size and, where both are indexed, equal indexes. *)
Definition compatible {A B : Type} (a : DataArray A) (b : DataArray B) : bool :=
    agree Nat.eqb (sizes a) (sizes b) && agree index_equal (coords a) (coords b).

  (** [xr.apply_ufunc(f, x, y)]: its join is exact, so operands that
      would need alignment are refused. *)
Definition apply_ufunc {A B C : Type} (f : A -> B -> C)
      (x : DataArray A) (y : DataArray B) : result (DataArray C) :=
    if compatible x y then Return (map2 f x y) else Raise AlignmentError.

  (** [xr.apply_ufunc(xr.ufuncs.logical_and, x, y)] and
      [xr.ufuncs.logical_or(x, y)], which goes through [apply_ufunc]
      too. *)
Definition logical_and (x y : DataArray bool) : result (DataArray bool) :=
    apply_ufunc andb x y.
Definition logical_or (x y : DataArray bool) : result (DataArray bool) :=
    apply_ufunc orb x y.

  (** [a + b].  Arithmetic joins the indexes of its operands (inner
      join): operands that need no alignment are added element by
      element; what the join gives for the others (a sum on the common
      labels, or an error) is [join a b], left open. *)
Definition add2 (join : DataArray float -> DataArray float -> result (DataArray float))
      (a b : DataArray float) : result (DataArray float) :=
    if compatible a b then Return (map2 PrimFloat.add a b) else join a b.

End xr.

(** Arithmetic between a coordinate of either kind and a scalar: a raw
    array gives a raw array, a labeled one a labeled one. *)
Definition array_map (f : float -> float) (a : array) : array :=
  match a with
  | ndarray v => ndarray (List.map f v)
  | xarray d => xarray (xr.map f d)
  end.

Definition array_mul (a : array) (s : float) : array :=
  array_map (fun x => PrimFloat.mul x s) a.
Definition array_div (a : array) (s : float) : array :=
  array_map (fun x => PrimFloat.div x s) a.

(* ================================================================== *)
(** ** [functools.reduce] without an initial value *)

Fixpoint reduce_from {A : Type} (f : A -> A -> result A) (l : list A) (acc : A)
  : result A :=
  match l with
  | [] => Return acc
  | y :: l => bind (f acc y) (reduce_from f l)
  end.

Definition reduce {A : Type} (f : A -> A -> result A) (l : list A) : result A :=
  match l with
  | [] => Raise (TypeError "reduce() of empty iterable with no initial value")
  | x :: xs => reduce_from f xs x
  end.

Local Open Scope result_scope.

(* ================================================================== *)
(** ** The mask builders *)

Definition _combine_plus_minus (logical_plus logical_minus : list (DataArray bool))
  : result (DataArray bool) :=
  omega_plus <- reduce xr.logical_and logical_plus ;;
  omega_minus <- reduce xr.logical_and logical_minus ;;
  xr.logical_or omega_plus omega_minus.

Definition _wrap_to_xarray (wavenumber frequency : array)
  : DataArray float * DataArray float :=
  let wavenumber :=
    match wavenumber with
    | ndarray v => xr.coordinate "wavenumber" v
    | xarray d => d
    end in
  let frequency :=
    match frequency with
    | ndarray v => xr.coordinate "frequency" v
    | xarray d => d
    end in
  (wavenumber, frequency).

(** What [kf_mask] returns: the combined mask, or the two branch lists
    when [return_individual] is set. *)
Inductive kf_output : Type :=
| Combined (mask : DataArray bool)
| Individual (logical_plus logical_minus : list (DataArray bool)).

Definition msg_fmin : string :=
  ("Frequency " ++ quoted "fmin" ++ " must be greater than 0.")%string.
Definition msg_fmax : string :=
  ("Frequency " ++ quoted "fmax" ++ " must be greater than 0.")%string.
Definition msg_fmin_fmax : string :=
  (quoted "fmin" ++ " should be smaller than " ++ quoted "fmax" ++ ".")%string.
Definition msg_kmin_kmax : string :=
  ("Wavenumber " ++ quoted "kmin" ++ " should be smaller than " ++ quoted "kmax" ++ ".")%string.

Definition branches : Type := (list (DataArray bool) * list (DataArray bool))%type.

Definition kf_mask (wavenumber frequency : array)
    (fmin fmax kmin kmax : option float) (return_individual : bool)
  : result kf_output :=
  let '(wavenumber, frequency) := _wrap_to_xarray wavenumber frequency in
  let logical_plus := [xr.gt frequency 0%float] in
  let logical_minus := [xr.lt frequency 0%float] in
  '(logical_plus, logical_minus) <-
    match fmin with
    | Some fmin =>
        assert_ (PyFloat.gt fmin 0%float) msg_fmin ;;;
        Return (logical_plus ++ [xr.gt frequency fmin],
                logical_minus ++ [xr.lt frequency (- fmin)%float])
    | None => Return (logical_plus, logical_minus)
    end ;;
  '(logical_plus, logical_minus) <-
    match fmax with
    | Some fmax =>
        assert_ (PyFloat.gt fmax 0%float) msg_fmax ;;;
        Return (logical_plus ++ [xr.lt frequency fmax],
                logical_minus ++ [xr.gt frequency (- fmax)%float])
    | None => Return (logical_plus, logical_minus)
    end ;;
  let '(logical_plus, logical_minus) :=
    match kmin with
    | Some kmin =>
        (logical_plus ++ [xr.gt wavenumber kmin],
         logical_minus ++ [xr.lt wavenumber (- kmin)%float])
    | None => (logical_plus, logical_minus)
    end in
  let '(logical_plus, logical_minus) :=
    match kmax with
    | Some kmax =>
        (logical_plus ++ [xr.lt wavenumber kmax],
         logical_minus ++ [xr.gt wavenumber (- kmax)%float])
    | None => (logical_plus, logical_minus)
    end in
  match fmin, fmax with
  | Some fmin, Some fmax => assert_ (PyFloat.lt fmin fmax) msg_fmin_fmax
  | _, _ => Return tt
  end ;;;
  match kmin, kmax with
  | Some kmin, Some kmax => assert_ (PyFloat.lt kmin kmax) msg_kmin_kmax
  | _, _ => Return tt
  end ;;;
  if return_individual then
    Return (Individual logical_plus logical_minus)
  else
    mask <- _combine_plus_minus logical_plus logical_minus ;;
    Return (Combined mask).

(* ================================================================== *)
(** ** The wave and tropical-depression masks *)

(** A dispersion relation of the registry: called as
    [func(op, omega, k, n)], it returns a boolean field. *)
Definition dispersion : Type :=
  comparator -> array -> array -> Z -> DataArray bool.

(** Modelled from the spec: [wave_types] of [kf_filter.consts], which is
    not among the sources; the specification gives the recognized wave
    types as kelvin, er, ig, eig and mrg. *)
Definition wave_types : list string := ["kelvin"; "er"; "ig"; "eig"; "mrg"]%string.

(** [x in l] for strings. *)
Definition str_in (x : string) (l : list string) : bool :=
  existsb (String.eqb x) l.

Definition msg_wave_type (wave_type : string) : string :=
  ("Unsupported wave_type " ++ quoted wave_type ++ ".")%string.

(** [logical_plus, logical_minus = kf_mask(..., return_individual=True)]:
    the call returns the two lists; unpacking anything else fails. *)
Definition unpack_branches (out : kf_output) : result branches :=
  match out with
  | Individual logical_plus logical_minus => Return (logical_plus, logical_minus)
  | Combined _ => Raise (ValueError "too many values to unpack (expected 2)")
  end.

Section Consts.

  (** The constants of [kf_filter.consts]: gravitational acceleration,
      Earth's radius and the equatorial beta parameter, and the registry
      of dispersion relations, a dictionary keyed by wave type. *)
Variables g radius_earth beta : float.
Variable wave_func : string -> option dispersion.

  (** [wave_func[wave_type]] *)
Definition wave_func_getitem (wave_type : string) : result dispersion :=
    match wave_func wave_type with
    | Some func => Return func
    | None => Raise (KeyError wave_type)
    end.

Definition _nondim_k_omega (wavenumber frequency : array) (h : float)
    : array * array :=
    let _ := _wrap_to_xarray wavenumber frequency in
    let c := PrimFloat.sqrt (g * h)%float in
    let k_nondim :=
      array_mul (array_div wavenumber radius_earth)
                (PrimFloat.sqrt (c / beta)%float) in
    let omega_nondim :=
      array_div
        (array_div (array_mul (array_mul frequency 2%float) PyFloat.pi)
                   (PyFloat.of_int (24 * 3600)))
        (PrimFloat.sqrt (beta * c)%float) in
    (k_nondim, omega_nondim).

Definition wave_mask (wavenumber frequency : array) (wave_type : string)
      (fmin fmax kmin kmax hmin hmax : option float) (n : Z)
    : result (DataArray bool) :=
    let '(wavenumber, frequency) := _wrap_to_xarray wavenumber frequency in
    out <- kf_mask (xarray wavenumber) (xarray frequency)
                   fmin fmax kmin kmax true ;;
    '(logical_plus, logical_minus) <- unpack_branches out ;;
    if negb (str_in wave_type wave_types) then
      Raise (ValueError (msg_wave_type wave_type))
    else
      func <- wave_func_getitem wave_type ;;
      let '(logical_plus, logical_minus) :=
        match hmin with
        | Some hmin =>
            let '(k, omega) :=
              _nondim_k_omega (xarray wavenumber) (xarray frequency) hmin in
            let logical_plus := logical_plus ++ [func operator_gt omega k n] in
            if str_in wave_type ["ig"; "eig"; "mrg"]%string then
              (logical_plus, logical_minus ++ [func operator_gt omega k n])
            else
              (logical_plus, logical_minus ++ [func operator_lt omega k n])
        | None => (logical_plus, logical_minus)
        end in
      let '(logical_plus, logical_minus) :=
        match hmax with
        | Some hmax =>
            let '(k, omega) :=
              _nondim_k_omega (xarray wavenumber) (xarray frequency) hmax in
            let logical_plus := logical_plus ++ [func operator_lt omega k n] in
            if str_in wave_type ["ig"; "eig"; "mrg"]%string then
              (logical_plus, logical_minus ++ [func operator_lt omega k n])
            else
              (logical_plus, logical_minus ++ [func operator_gt omega k n])
        | None => (logical_plus, logical_minus)
        end in
      _combine_plus_minus logical_plus logical_minus.

End Consts.

Section Arithmetic.

(** What xarray's arithmetic gives for operands whose indexes conflict
    on a shared dimension. *)
Variable arithmetic_join :
  DataArray float -> DataArray float -> result (DataArray float).

Definition td_mask (wavenumber frequency : array)
    (fmin fmax kmin kmax : option float) : result (DataArray bool) :=
  let '(wavenumber, frequency) := _wrap_to_xarray wavenumber frequency in
  out <- kf_mask (xarray wavenumber) (xarray frequency)
                 fmin fmax kmin kmax true ;;
  '(logical_plus, logical_minus) <- unpack_branches out ;;
  line <- xr.add2 arithmetic_join (xr.rmul 84%float frequency) wavenumber ;;
  let logical_plus := logical_plus ++ [xr.lt (xr.sub line 22%float) 0%float] in
  line <- xr.add2 arithmetic_join (xr.rmul 84%float frequency) wavenumber ;;
  let logical_minus := logical_minus ++ [xr.gt (xr.add line 22%float) 0%float] in
  line <- xr.add2 arithmetic_join (xr.rmul 210%float frequency)
                                  (xr.rmul 2.5%float wavenumber) ;;
  let logical_plus := logical_plus ++ [xr.gt (xr.sub line 13%float) 0%float] in
  line <- xr.add2 arithmetic_join (xr.rmul 210%float frequency)
                                  (xr.rmul 2.5%float wavenumber) ;;
  let logical_minus := logical_minus ++ [xr.lt (xr.add line 13%float) 0%float] in
  _combine_plus_minus logical_plus logical_minus.

End Arithmetic.

(** The defaults of the signatures:
    [td_mask(wavenumber, frequency, fmin=None, fmax=None, kmin=-20, kmax=-6)]
    and [wave_mask(wavenumber, frequency, wave_type, fmin=0.05, fmax=0.4,
    kmin=None, kmax=14, hmin=8, hmax=90, n=1)]. *)
Module Defaults.
Definition td_fmin : option float := None.
Definition td_fmax : option float := None.
Definition td_kmin : option float := Some (-20)%float.
Definition td_kmax : option float := Some (-6)%float.
(* 0.05 and 0.4 as Python reads them: the nearest binary64 values *)
Definition wave_fmin : option float := Some 0x1.999999999999ap-5%float.
Definition wave_fmax : option float := Some 0x1.999999999999ap-2%float.
Definition wave_kmin : option float := None.
Definition wave_kmax : option float := Some 14%float.
Definition wave_hmin : option float := Some 8%float.
Definition wave_hmax : option float := Some 90%float.
Definition wave_n : Z := 1.
End Defaults.

(** [td_mask(wavenumber, frequency)] *)
Definition td_mask_default
    (arithmetic_join : DataArray float -> DataArray float -> result (DataArray float))
    (wavenumber frequency : array) : result (DataArray bool) :=
  td_mask arithmetic_join wavenumber frequency
          Defaults.td_fmin Defaults.td_fmax Defaults.td_kmin Defaults.td_kmax.

(** [wave_mask(wavenumber, frequency, wave_type)] *)
Definition wave_mask_default (g radius_earth beta : float)
    (wave_func : string -> option dispersion)
    (wavenumber frequency : array) (wave_type : string) : result (DataArray bool) :=
  wave_mask g radius_earth beta wave_func wavenumber frequency wave_type
            Defaults.wave_fmin Defaults.wave_fmax Defaults.wave_kmin
            Defaults.wave_kmax Defaults.wave_hmin Defaults.wave_hmax
            Defaults.wave_n.

(* ================================================================== *)
(** ** Reading a result at a bin *)

(** The wavenumber and the frequency of the bin at position [p]: the
    values there of the two coordinates, once normalized. *)
Definition wavenumber_at (wavenumber frequency : array) (p : position) : float :=
  values (fst (_wrap_to_xarray wavenumber frequency)) p.

Definition frequency_at (wavenumber frequency : array) (p : position) : float :=
  values (snd (_wrap_to_xarray wavenumber frequency)) p.

(** The value of a returned mask at a position; nothing when the call
    raised (or, for [kf_mask], returned the branch lists). *)
Definition mask_value (r : result (DataArray bool)) (p : position) : option bool :=
  match r with
  | Return mask => Some (values mask p)
  | Raise _ => None
  end.

Definition combined_value (r : result kf_output) (p : position) : option bool :=
  match r with
  | Return (Combined mask) => Some (values mask p)
  | _ => None
  end.

(** The bin at index [i] of a raw wavenumber array and index [j] of a
    raw frequency array. *)
Definition bin (i j : nat) : position :=
  fun d => if String.eqb d "wavenumber" then i
           else if String.eqb d "frequency" then j else 0.

(* ================================================================== *)
(** ** The statements of the specification *)

(** A predicate that counts only when its bound was supplied. *)
Definition supplied {A : Type} (bound : option A) (P : A -> bool) : bool :=
  match bound with
  | Some b => P b
  | None => true
  end.

(** The validity of the bounds: [fmin > 0], [fmax > 0], [fmin < fmax],
    [kmin < kmax], each for the bounds that are supplied. *)
Definition positive (bound : option float) : bool :=
  supplied bound (fun b => PyFloat.gt b 0%float).

Definition ordered (lo hi : option float) : bool :=
  supplied lo (fun a => supplied hi (fun b => PyFloat.lt a b)).

Definition bounds_valid (fmin fmax kmin kmax : option float) : bool :=
  positive fmin && positive fmax && ordered fmin fmax && ordered kmin kmax.

(** The message of the first check that fails, in the order [kf_mask]
    runs them. *)
Definition first_violation (fmin fmax kmin kmax : option float) : option string :=
  if negb (positive fmin) then Some msg_fmin
  else if negb (positive fmax) then Some msg_fmax
  else if negb (ordered fmin fmax) then Some msg_fmin_fmax
  else if negb (ordered kmin kmax) then Some msg_kmin_kmax
  else None.

(** A message names a constraint that the bounds violate. *)
Definition names_violation (fmin fmax kmin kmax : option float) (msg : string) : Prop :=
  (msg = msg_fmin /\ positive fmin = false) \/
  (msg = msg_fmax /\ positive fmax = false) \/
  (msg = msg_fmin_fmax /\ ordered fmin fmax = false) \/
  (msg = msg_kmin_kmax /\ ordered kmin kmax = false).

(** The two branches of the box at a bin of wavenumber [k] and frequency
    [f]: [frequency > 0] and the plus predicates of the supplied bounds;
    [frequency < 0] and the sign-mirrored ones. *)
Definition plus_branch (fmin fmax kmin kmax : option float) (k f : float) : bool :=
  PyFloat.gt f 0%float
  && supplied fmin (fun fmin => PyFloat.gt f fmin)
  && supplied fmax (fun fmax => PyFloat.lt f fmax)
  && supplied kmin (fun kmin => PyFloat.gt k kmin)
  && supplied kmax (fun kmax => PyFloat.lt k kmax).

Definition minus_branch (fmin fmax kmin kmax : option float) (k f : float) : bool :=
  PyFloat.lt f 0%float
  && supplied fmin (fun fmin => PyFloat.lt f (- fmin)%float)
  && supplied fmax (fun fmax => PyFloat.gt f (- fmax)%float)
  && supplied kmin (fun kmin => PyFloat.lt k (- kmin)%float)
  && supplied kmax (fun kmax => PyFloat.gt k (- kmax)%float).

(** The predicate lists that [kf_mask] builds from the normalized
    coordinates. *)
Definition when {A B : Type} (bound : option A) (f : A -> B) : list B :=
  match bound with
  | Some b => [f b]
  | None => []
  end.

Definition box_plus (wavenumber frequency : DataArray float)
    (fmin fmax kmin kmax : option float) : list (DataArray bool) :=
  [xr.gt frequency 0%float]
    ++ when fmin (fun fmin => xr.gt frequency fmin)
    ++ when fmax (fun fmax => xr.lt frequency fmax)
    ++ when kmin (fun kmin => xr.gt wavenumber kmin)
    ++ when kmax (fun kmax => xr.lt wavenumber kmax).

Definition box_minus (wavenumber frequency : DataArray float)
    (fmin fmax kmin kmax : option float) : list (DataArray bool) :=
  [xr.lt frequency 0%float]
    ++ when fmin (fun fmin => xr.lt frequency (- fmin)%float)
    ++ when fmax (fun fmax => xr.gt frequency (- fmax)%float)
    ++ when kmin (fun kmin => xr.lt wavenumber (- kmin)%float)
    ++ when kmax (fun kmax => xr.gt wavenumber (- kmax)%float).

(** The empirical boundaries of the tropical-depression envelope at a
    bin: [84 f + k - 22 < 0] and [210 f + 2.5 k - 13 > 0] on the plus
    branch, [84 f + k + 22 > 0] and [210 f + 2.5 k + 13 < 0] on the
    minus branch. *)
Definition td_plus (k f : float) : bool :=
  PyFloat.lt (84 * f + k - 22)%float 0%float
  && PyFloat.gt (210 * f + 2.5 * k - 13)%float 0%float.

Definition td_minus (k f : float) : bool :=
  PyFloat.gt (84 * f + k + 22)%float 0%float
  && PyFloat.lt (210 * f + 2.5 * k + 13)%float 0%float.

(** The comparators of the minus branch: for ig, eig and mrg the one of
    the plus branch, for er and kelvin the opposite one. *)
Definition omega_squared (wave_type : string) : bool :=
  str_in wave_type ["ig"; "eig"; "mrg"]%string.

Definition hmin_minus_comparator (wave_type : string) : comparator :=
  if omega_squared wave_type then operator_gt else operator_lt.

Definition hmax_minus_comparator (wave_type : string) : comparator :=
  if omega_squared wave_type then operator_lt else operator_gt.

(** The non-dimensional wavenumber and frequency of the specification,
    for one element:
    [k / R_earth * sqrt(c / beta)] and
    [f * 2 * pi / 86400 / sqrt(beta * c)] with [c = sqrt(g * h)]. *)
Section Nondim.

Variables g radius_earth beta : float.

Definition phase_speed (h : float) : float := PrimFloat.sqrt (g * h)%float.

Definition k_nondim_of (h k : float) : float :=
    (k / radius_earth * PrimFloat.sqrt (phase_speed h / beta))%float.

Definition omega_nondim_of (h f : float) : float :=
    (f * 2 * PyFloat.pi / 86400 / PrimFloat.sqrt (beta * phase_speed h))%float.

End Nondim.

(** [b] is [a] with [f] applied to every element: same kind of array,
    same dimensions and coordinates. *)
Definition elementwise (f : float -> float) (a b : array) : Prop :=
  match a, b with
  | ndarray u, ndarray v => v = List.map f u
  | xarray d, xarray e =>
      sizes e = sizes d /\ coords e = coords d /\
      forall p, values e p = f (values d p)
  | _, _ => False
  end.

(** A registry to run the model with: every recognized wave type is
    given the relation [op(omega, k)], on labeled arguments. *)
Definition sample_relation : dispersion :=
  fun op omega k _ =>
    match omega, k with
    | xarray omega, xarray k => xr.map2 (compare_with op) omega k
    | xarray omega, ndarray _ => xr.map (fun _ => false) omega
    | ndarray _, xarray k => xr.map (fun _ => false) k
    | ndarray _, ndarray _ => xr.map (fun _ => false) (xr.coordinate "wavenumber" [])
    end.

Definition sample_wave_func (wave_type : string) : option dispersion :=
  if str_in wave_type wave_types then Some sample_relation else None.

(** [y] is [x] with its sign flipped: the very value [-x], or a value
    that compares equal to it (so that [0.0] mirrors [0.0]). *)
Definition mirrored (x y : float) : Prop :=
  y = (- x)%float \/ PrimFloat.eqb y (- x) = true.

(** Constants to run [_nondim_k_omega] and [wave_mask] with. *)
Module Sample.
Definition g : float := 9.8125%float.
Definition radius_earth : float := 6371000%float.
Definition beta : float := 0x1p-35%float.
Definition wavenumber : array := ndarray [(-3)%float; 0%float; 3%float].
Definition frequency : array := ndarray [(-0.25)%float; 0%float; 0.25%float].
(* a stand-in for the join of conflicting indexes, to run [td_mask] on
   raw coordinates, which never reach it *)
Definition arithmetic_join (a b : DataArray float) : result (DataArray float) :=
  Raise (ValueError "join of conflicting indexes").
End Sample.

(** The predicate lists of [wave_mask]: the box, then the dispersion
    relation at [hmin] and at [hmax] when these are supplied. *)
Section WaveBranches.

Variables g radius_earth beta : float.

(** [func(op, omega, k, n)] at the dispersion point of depth [h]. *)
Definition dispersion_at (func : dispersion) (op : comparator)
    (wavenumber frequency : DataArray float) (h : float) (n : Z) : DataArray bool :=
  let '(k, omega) :=
    _nondim_k_omega g radius_earth beta (xarray wavenumber) (xarray frequency) h in
  func op omega k n.

Definition wave_plus (func : dispersion) (wavenumber frequency : DataArray float)
    (fmin fmax kmin kmax hmin hmax : option float) (n : Z) : list (DataArray bool) :=
  box_plus wavenumber frequency fmin fmax kmin kmax
    ++ when hmin (fun hmin => dispersion_at func operator_gt wavenumber frequency hmin n)
    ++ when hmax (fun hmax => dispersion_at func operator_lt wavenumber frequency hmax n).

Definition wave_minus (wave_type : string) (func : dispersion)
    (wavenumber frequency : DataArray float)
    (fmin fmax kmin kmax hmin hmax : option float) (n : Z) : list (DataArray bool) :=
  box_minus wavenumber frequency fmin fmax kmin kmax
    ++ when hmin (fun hmin =>
         dispersion_at func (hmin_minus_comparator wave_type) wavenumber frequency hmin n)
    ++ when hmax (fun hmax =>
         dispersion_at func (hmax_minus_comparator wave_type) wavenumber frequency hmax n).

End WaveBranches.

(** The two predicates that [td_mask] appends to each branch, from the
    sums [84 * frequency + wavenumber] and
    [210 * frequency + 2.5 * wavenumber]. *)
Definition td_plus_of (line1 line2 : DataArray float) : list (DataArray bool) :=
  [xr.lt (xr.sub line1 22%float) 0%float; xr.gt (xr.sub line2 13%float) 0%float].

Definition td_minus_of (line1 line2 : DataArray float) : list (DataArray bool) :=
  [xr.gt (xr.add line1 22%float) 0%float; xr.lt (xr.add line2 13%float) 0%float].

(** The same on coordinates that need no alignment, where the sums are
    taken element by element. *)
Definition td_plus_list (wavenumber frequency : DataArray float) : list (DataArray bool) :=
  td_plus_of (xr.map2 PrimFloat.add (xr.rmul 84%float frequency) wavenumber)
             (xr.map2 PrimFloat.add (xr.rmul 210%float frequency)
                                    (xr.rmul 2.5%float wavenumber)).

Definition td_minus_list (wavenumber frequency : DataArray float) : list (DataArray bool) :=
  td_minus_of (xr.map2 PrimFloat.add (xr.rmul 84%float frequency) wavenumber)
              (xr.map2 PrimFloat.add (xr.rmul 210%float frequency)
                                     (xr.rmul 2.5%float wavenumber)).

(** The two coordinates need no alignment with each other, as is the
    case of raw inputs, which are labeled "wavenumber" and "frequency". *)
Definition aligned (wavenumber frequency : array) : bool :=
  xr.compatible (snd (_wrap_to_xarray wavenumber frequency))
                (fst (_wrap_to_xarray wavenumber frequency)).

(** The predicates of the box need no alignment: no bound on the
    wavenumber is supplied, or the two coordinates are aligned. *)
Definition box_aligned (wavenumber frequency : array) (kmin kmax : option float) : bool :=
  match kmin, kmax with
  | None, None => true
  | _, _ => aligned wavenumber frequency
  end.

(** A grid gives dimensions their sizes and indexes; an array lies on a
    grid when its dimensions have the sizes and, up to the equality of
    indexes, the indexes of the grid. *)
Record grid : Type := mkGrid {
  grid_size : string -> option nat;
  grid_index : string -> option (list float)
}.

Definition on_grid (G : grid) {A : Type} (a : DataArray A) : Prop :=
  (forall d n, xr.lookup d (sizes a) = Some n -> grid_size G d = Some n)
  /\ (forall d i, xr.lookup d (coords a) = Some i ->
                  exists j, grid_index G d = Some j /\ xr.index_equal i j = true).

(** The grid of two coordinates: the dimensions of the first, then
    those of the second. *)
Definition grid_of (a b : DataArray float) : grid :=
  {| grid_size := fun d => match xr.lookup d (sizes a) with
                           | Some n => Some n
                           | None => xr.lookup d (sizes b)
                           end;
     grid_index := fun d => match xr.lookup d (coords a) with
                            | Some i => Some i
                            | None => xr.lookup d (coords b)
                            end |}.

(** [b] has the dimensions of [a], with their sizes and indexes, and
    possibly others. *)
Definition extends {A B : Type} (a : DataArray A) (b : DataArray B) : Prop :=
  (forall d n, xr.lookup d (sizes a) = Some n -> xr.lookup d (sizes b) = Some n)
  /\ (forall d i, xr.lookup d (coords a) = Some i -> xr.lookup d (coords b) = Some i).

(** A bound of a looser box: the same bound, or none. *)
Definition loosened (bound bound' : option float) : Prop :=
  bound' = None \/ bound' = bound.

(** How many of the four bounds are supplied. *)
Definition supplied_count (fmin fmax kmin kmax : option float) : nat :=
  List.length (when fmin id) + List.length (when fmax id)
  + List.length (when kmin id) + List.length (when kmax id).

(** A value that is zero or NaN, and a value that is infinite or NaN. *)
Definition vanishes (x : float) : bool :=
  PrimFloat.is_zero x || PrimFloat.is_nan x.

Definition blows_up (x : float) : bool := negb (PrimFloat.is_finite x).

(** Every element of a coordinate satisfies [P]. *)
Definition array_all (P : float -> bool) (a : array) : Prop :=
  match a with
  | ndarray v => forallb P v = true
  | xarray d => forall p, P (values d p) = true
  end.

(** On the specification of binary64: [y] is the negation of [x], up to
    the sign of a zero. *)
Definition negated (x y : spec_float) : Prop :=
  y = SFopp x \/ (exists s s', x = S754_zero s /\ y = S754_zero s').

(** On the specification of binary64: a zero or NaN, an infinity or
    NaN. *)
Definition zero_or_nan (x : spec_float) : Prop :=
  match x with
  | S754_zero _ | S754_nan => True
  | _ => False
  end.

Definition infinite_or_nan (x : spec_float) : Prop :=
  match x with
  | S754_infinity _ | S754_nan => True
  | _ => False
  end.

(* ================================================================== *)
(** ** The regression and taper helpers *)

(** The part of numpy that [harmonic_func] and [split_hann_taper] use,
    on one- and two-dimensional arrays of floats (a matrix is the list
    of its rows). *)
Module np.

(** The exceptions these helpers can meet, beyond those above. *)
Inductive raised : Type :=
| Builtin (e : exception)
| OverflowError (msg : string)
| IndexError (msg : string).

Inductive outcome (A : Type) : Type :=
| Value (a : A)
| Error (e : raised).

Arguments Value {A} a.
Arguments Error {A} e.

Definition and_then {A B : Type} (m : outcome A) (k : A -> outcome B) : outcome B :=
  match m with
  | Value a => k a
  | Error e => Error e
  end.

Definition negative_dimensions : raised :=
  Builtin (ValueError "negative dimensions are not allowed").

Definition cannot_broadcast : raised :=
  Builtin (ValueError "could not broadcast input array").

(** [np.zeros((rows, cols))] and [np.ones(n)] *)
Definition zeros2 (rows cols : Z) : outcome (list (list float)) :=
  if ((rows <? 0) || (cols <? 0))%Z then Error negative_dimensions
  else Value (repeat (repeat 0%float (Z.to_nat cols)) (Z.to_nat rows)).

Definition ones (n : Z) : outcome (list float) :=
  if (n <? 0)%Z then Error negative_dimensions
  else Value (repeat 1%float (Z.to_nat n)).

(** [range(n)], and [np.arange(0, n)]: 0, 1, ..., n - 1. *)
Definition range (n : Z) : list Z := List.map Z.of_nat (seq 0 (Z.to_nat n)).

(** What an assigned value gives to a destination of [n] elements: the
    value itself when it has [n] elements, its element repeated when it
    has one, and an error otherwise. *)
Definition broadcast_to (src : list float) (n : nat) : outcome (list float) :=
  if Nat.eqb (List.length src) n then Value src
  else match src with
       | [x] => Value (repeat x n)
       | _ => Error cannot_broadcast
       end.

(** [l] with the element at index [i] replaced. *)
Definition replace_nth {A : Type} (i : nat) (x : A) (l : list A) : list A :=
  firstn i l ++ [x] ++ skipn (S i) l.

(** [func[r, :] = row] *)
Definition set_row (func : list (list float)) (r : Z) (row : list float)
  : outcome (list (list float)) :=
  let rows := Z.of_nat (List.length func) in
  if ((r <? - rows) || (rows <=? r))%Z then
    Error (IndexError "index is out of bounds for axis 0")
  else
    let i := Z.to_nat (if (r <? 0)%Z then r + rows else r) in
    and_then (broadcast_to row (List.length (nth i func [])))
             (fun row => Value (replace_nth i row func)).

(** A bound of a slice on a sequence of [len] elements: counted from
    the end when negative, and clipped to the sequence. *)
Definition slice_index (len i : Z) : Z :=
  if (i <? 0)%Z then Z.max (i + len) 0 else Z.min i len.

(** Where [l[start:stop]] begins and how many elements it has. *)
Definition slice_bounds (len : nat) (start stop : option Z) : nat * nat :=
  let a := match start with
           | Some i => slice_index (Z.of_nat len) i
           | None => 0%Z
           end in
  let b := match stop with
           | Some i => slice_index (Z.of_nat len) i
           | None => Z.of_nat len
           end in
  (Z.to_nat a, Z.to_nat (b - a)).

(** [l[start:stop]] *)
Definition get_slice (l : list float) (start stop : option Z) : list float :=
  let '(a, n) := slice_bounds (List.length l) start stop in
  firstn n (skipn a l).

(** [l[start:stop] = src] *)
Definition set_slice (l : list float) (start stop : option Z) (src : list float)
  : outcome (list float) :=
  let '(a, n) := slice_bounds (List.length l) start stop in
  and_then (broadcast_to src n)
           (fun src => Value (firstn a l ++ src ++ skipn (a + n) l)).

(** The integer nearest to [m * 2^e], the even one of two nearest. *)
Definition half_even (m : BinNums.positive) (e : Z) : Z :=
  match e with
  | Zneg d =>
      let q := Z.shiftr (Zpos m) (Zpos d) in
      let r := (Zpos m - Z.shiftl q (Zpos d))%Z in
      match (r ?= Z.shiftl 1 (Zpos d - 1))%Z with
      | Lt => q
      | Gt => (q + 1)%Z
      | Eq => if Z.even q then q else (q + 1)%Z
      end
  | _ => Z.shiftl (Zpos m) e
  end.

(** [np.rint(x)]: rounds to the nearest integer, ties to even; zeros,
    infinities, NaN and the values without a fraction are unchanged. *)
Definition rint (x : float) : float :=
  match Prim2SF x with
  | S754_finite s m (Zneg d) =>
      SF2Prim (binary_normalize prec emax
                 (cond_Zopp s (half_even m (Zneg d))) 0 s)
  | _ => x
  end.

(** [int(x)]: truncates; fails on NaN and on the infinities. *)
Definition int (x : float) : outcome Z :=
  match Prim2SF x with
  | S754_zero _ => Value 0%Z
  | S754_nan => Error (Builtin (ValueError "cannot convert float NaN to integer"))
  | S754_infinity _ =>
      Error (OverflowError "cannot convert float infinity to integer")
  | S754_finite s m e =>
      Value (cond_Zopp s match e with
                         | Zneg d => Z.shiftr (Zpos m) (Zpos d)
                         | _ => Z.shiftl (Zpos m) e
                         end)
  end.

(** A [for] loop over a list that may fail. *)
Fixpoint for_each {A S : Type} (l : list A) (body : S -> A -> outcome S) (s : S)
  : outcome S :=
  match l with
  | [] => Value s
  | x :: xs => and_then (body s x) (for_each xs body)
  end.

End np.

Declare Scope outcome_scope.
Delimit Scope outcome_scope with outcome.
Notation "x <- m ;; k" := (np.and_then m (fun x => k))
  (at level 61, m at next level, right associativity) : outcome_scope.

Section Helpers.

(** [np.sin], [np.cos] and [np.hanning], which the binary64
    specification does not define, are parameters. *)
Variables np_sin np_cos : float -> float.
Variable np_hanning : Z -> list float.

(** [time] of [harmonic_func]: [np.arange(0, n) * 2 * np.pi / period]. *)
Definition harmonic_time (n : Z) (period : float) : list float :=
  List.map (fun j => (PyFloat.of_int (j * 2) * PyFloat.pi / period)%float)
           (np.range n).

Definition harmonic_func (n : Z) (period : float) (num_fs : Z)
  : np.outcome (list (list float)) :=
  (func <- np.zeros2 (num_fs * 2 + 1) n ;;
   let time := harmonic_time n period in
   row <- np.ones n ;;
   func <- np.set_row func 0 row ;;
   np.for_each (np.range num_fs)
     (fun func i =>
        func <- np.set_row func (2 * i + 1)
                  (List.map (fun t => np_sin (PyFloat.of_int i * t)%float) time) ;;
        np.set_row func ((i + 1) * 2)
                  (List.map (fun t => np_cos (PyFloat.of_int i * t)%float) time))
     func)%outcome.

Definition split_hann_taper (series_length : Z) (fraction : float)
  : np.outcome (list float) :=
  (npts <- np.int (np.rint (fraction * PyFloat.of_int series_length)%float) ;;
   let taper := np_hanning npts in
   series_taper <- np.ones series_length ;;
   series_taper <- np.set_slice series_taper (Some 0%Z) (Some (npts / 2 + 1)%Z)
                     (np.get_slice taper (Some 0%Z) (Some (npts / 2 + 1)%Z)) ;;
   series_taper <- np.set_slice series_taper (Some (- npts / 2 + 1)%Z) None
                     (np.get_slice taper (Some (npts / 2 + 1)%Z) None) ;;
   np.Value series_taper)%outcome.

End Helpers.

(** The defaults [period=365] and [num_fs=4] of [harmonic_func]. *)
Definition harmonic_func_default (np_sin np_cos : float -> float) (n : Z)
  : np.outcome (list (list float)) :=
  harmonic_func np_sin np_cos n 365%float 4.

(** Stand-ins to run the helpers with: the first terms of the series of
    sine and cosine, and a window that vanishes at both ends. *)
Definition sample_sin (x : float) : float := x.
Definition sample_cos (x : float) : float := (1 - x * x / 2)%float.
Definition sample_window (M : Z) : list float :=
  List.map (fun j => PyFloat.of_int (j * (M - 1 - j))) (np.range M).

(* ================================================================== *)
(** ** The model on the cases the specification lists *)

(** [kf_mask(fmin=0.5, fmax=0.25)] fails: [fmin] is not below [fmax]. *)
Example kf_mask_fmin_above_fmax :
  kf_mask Sample.wavenumber Sample.frequency
          (Some 0.5%float) (Some 0.25%float) None None false
  = Raise (AssertionError msg_fmin_fmax).
Proof. reflexivity. Qed.

(** [kf_mask(fmin=-0.125)] fails: [fmin] must be greater than 0. *)
Example kf_mask_negative_fmin :
  kf_mask Sample.wavenumber Sample.frequency
          (Some (-0.125)%float) None None None false
  = Raise (AssertionError msg_fmin).
Proof. reflexivity. Qed.

(** Negative wavenumber bounds are accepted as they are. *)
Example kf_mask_negative_kmin :
  combined_value
    (kf_mask Sample.wavenumber Sample.frequency
             None None (Some (-20)%float) (Some (-1)%float) false) (bin 0 2)
  = Some true.
Proof. reflexivity. Qed.

(** [wave_mask(..., wave_type="bogus")] with the default bounds fails
    and names the wave type. *)
Example wave_mask_bogus :
  wave_mask_default Sample.g Sample.radius_earth Sample.beta sample_wave_func
                    Sample.wavenumber Sample.frequency "bogus"
  = Raise (ValueError ("Unsupported wave_type " ++ quoted "bogus" ++ ".")).
Proof. reflexivity. Qed.

(** The messages of [kf_mask] name their parameters. *)
Example msg_fmin_names_fmin : substring 11 4 msg_fmin = "fmin"%string.
Proof. reflexivity. Qed.

Example msg_fmax_names_fmax : substring 11 4 msg_fmax = "fmax"%string.
Proof. reflexivity. Qed.

Example msg_fmin_fmax_names_both :
  substring 1 4 msg_fmin_fmax = "fmin"%string
  /\ substring 31 4 msg_fmin_fmax = "fmax"%string.
Proof. split; reflexivity. Qed.

Example msg_kmin_kmax_names_both :
  substring 12 4 msg_kmin_kmax = "kmin"%string
  /\ substring 42 4 msg_kmin_kmax = "kmax"%string.
Proof. split; reflexivity. Qed.

(** The default [td_mask] at the bins (-10, 0.25), (-10, 0.125) and
    (10, 0.25): only the first lies between the two boundaries. *)
Example td_mask_default_bins :
  List.map (mask_value (td_mask_default Sample.arithmetic_join
                                        (ndarray [(-10)%float; 10%float])
                                        (ndarray [0.25%float; 0.125%float])))
           [bin 0 0; bin 0 1; bin 1 0]
  = [Some true; Some false; Some false].
Proof. reflexivity. Qed.

(** Two labeled coordinates on the same dimension with different
    indexes: a bound on the wavenumber makes [kf_mask] combine
    predicates that xarray refuses to align; without such a bound only
    predicates on the frequency are combined. *)
Example kf_mask_conflicting_index :
  kf_mask (xarray (xr.coordinate "x" [(-3)%float; 0%float; 3%float]))
          (xarray (xr.coordinate "x" [(-0.25)%float; 0%float; 0.25%float]))
          None None (Some 1%float) None false
  = Raise AlignmentError
  /\ combined_value
       (kf_mask (xarray (xr.coordinate "x" [(-3)%float; 0%float; 3%float]))
                (xarray (xr.coordinate "x" [(-0.25)%float; 0%float; 0.25%float]))
                (Some 0.125%float) None None None false) (fun _ => 2)
     = Some true.
Proof. split; reflexivity. Qed.

(** The same with two arrays without index on one dimension, of
    different lengths. *)
Example kf_mask_conflicting_size :
  let unlabeled (v : list float) :=
    {| sizes := [("dim_0"%string, List.length v)];
       coords := [];
       values := fun p => nth (p "dim_0"%string) v PrimFloat.nan |} in
  kf_mask (xarray (unlabeled [1%float; 2%float; 3%float]))
          (xarray (unlabeled [0.25%float; 0.5%float]))
          None None None (Some 2%float) false
  = Raise AlignmentError.
Proof. reflexivity. Qed.

(* ================================================================== *)
(** ** Comparisons of binary64 values under a change of sign *)

Module FloatFacts.

Lemma SFcompare_opp (a b : spec_float) :
  SFcompare (SFopp a) (SFopp b) = SFcompare b a.
Proof.
  destruct a as [sa|sa| |sa ma ea], b as [sb|sb| |sb mb eb]; simpl;
    try reflexivity;
    try (destruct sa; reflexivity); try (destruct sb; reflexivity);
    try (destruct sa, sb; reflexivity).
  destruct sa, sb; simpl; try reflexivity; f_equal;
    rewrite (Z.compare_antisym ea eb); destruct (ea ?= eb)%Z; simpl;
    try reflexivity.
  - now rewrite (Pos.compare_cont_antisym mb ma Eq).
  - now rewrite (Pos.compare_cont_antisym ma mb Eq).
Qed.

Lemma SFcompare_neg_zero_r (x : spec_float) :
  SFcompare x (S754_zero true) = SFcompare x (S754_zero false).
Proof. destruct x; reflexivity. Qed.

Lemma SFcompare_neg_zero_l (x : spec_float) :
  SFcompare (S754_zero true) x = SFcompare (S754_zero false) x.
Proof. destruct x; reflexivity. Qed.

Lemma ltb_opp_opp (a b : float) :
  PrimFloat.ltb (- a) (- b) = PrimFloat.ltb b a.
Proof.
  rewrite !ltb_spec, !opp_spec. unfold SFltb. now rewrite SFcompare_opp.
Qed.

Lemma ltb_opp_zero (a : float) :
  PrimFloat.ltb (- a) 0 = PrimFloat.ltb 0 a.
Proof.
  rewrite <- (ltb_opp_opp a 0), !ltb_spec. unfold SFltb.
  change (Prim2SF (- 0)) with (S754_zero true).
  change (Prim2SF 0) with (S754_zero false).
  now rewrite SFcompare_neg_zero_r.
Qed.

Lemma ltb_zero_opp (a : float) :
  PrimFloat.ltb 0 (- a) = PrimFloat.ltb a 0.
Proof.
  rewrite <- (ltb_opp_opp 0 a), !ltb_spec. unfold SFltb.
  change (Prim2SF (- 0)) with (S754_zero true).
  change (Prim2SF 0) with (S754_zero false).
  now rewrite SFcompare_neg_zero_l.
Qed.

Lemma opp_involutive (a : float) : (- - a)%float = a.
Proof.
  rewrite <- (SF2Prim_Prim2SF (- - a)), !opp_spec.
  rewrite <- (SF2Prim_Prim2SF a) at 2. f_equal.
  destruct (Prim2SF a); simpl; try reflexivity; now rewrite negb_involutive.
Qed.

Lemma ltb_opp_r (a b : float) :
  PrimFloat.ltb a (- b) = PrimFloat.ltb b (- a).
Proof.
  rewrite <- (ltb_opp_opp (- b) a). now rewrite opp_involutive.
Qed.

Lemma ltb_opp_l (a b : float) :
  PrimFloat.ltb (- a) b = PrimFloat.ltb (- b) a.
Proof.
  rewrite <- (ltb_opp_opp b (- a)). now rewrite opp_involutive.
Qed.

(** A value equal to zero ([0.0] or [-0.0]) is neither above nor below
    zero. *)
Lemma zero_not_lt (f : float) :
  PrimFloat.eqb f 0 = true ->
  PrimFloat.ltb 0 f = false /\ PrimFloat.ltb f 0 = false.
Proof.
  rewrite eqb_spec, !ltb_spec. change (Prim2SF 0) with (S754_zero false).
  unfold SFeqb, SFltb.
  destruct (Prim2SF f) as [s|s| |s m e]; simpl;
    try discriminate; try (destruct s; discriminate).
  now split.
Qed.

(** Values that compare equal compare alike with any third value. *)
Lemma SFeqb_compare (x y z : spec_float) :
  SFeqb x y = true ->
  SFcompare x z = SFcompare y z /\ SFcompare z x = SFcompare z y.
Proof.
  unfold SFeqb.
  destruct x as [sx|sx| |sx mx ex], y as [sy|sy| |sy my ey]; simpl;
    try discriminate;
    try (destruct sx; discriminate); try (destruct sy; discriminate).
  - intros _. destruct z; auto.
  - destruct sx, sy; try discriminate; auto.
  - destruct sx, sy; try discriminate;
      destruct (ex ?= ey)%Z eqn:He; try discriminate;
      destruct (Pos.compare_cont Eq mx my) eqn:Hm; try discriminate;
      apply Z.compare_eq in He; apply Pos.compare_eq in Hm; subst; auto.
Qed.

Lemma eqb_ltb (x y z : float) :
  PrimFloat.eqb x y = true ->
  PrimFloat.ltb x z = PrimFloat.ltb y z /\ PrimFloat.ltb z x = PrimFloat.ltb z y.
Proof.
  rewrite eqb_spec, !ltb_spec. intros H.
  destruct (SFeqb_compare (Prim2SF x) (Prim2SF y) (Prim2SF z) H) as [H1 H2].
  unfold SFltb. now rewrite H1, H2.
Qed.

End FloatFacts.

(** The branches mirror each other when both coordinates change sign. *)
Lemma plus_branch_mirror fmin fmax kmin kmax (k f : float) :
  plus_branch fmin fmax kmin kmax (- k) (- f) = minus_branch fmin fmax kmin kmax k f.
Proof.
  unfold plus_branch, minus_branch, supplied, PyFloat.gt, PyFloat.lt.
  rewrite FloatFacts.ltb_zero_opp.
  destruct fmin, fmax, kmin, kmax;
    rewrite ?(FloatFacts.ltb_opp_r _ f), ?(FloatFacts.ltb_opp_r _ k),
            ?(FloatFacts.ltb_opp_l f), ?(FloatFacts.ltb_opp_l k);
    reflexivity.
Qed.

Lemma minus_branch_mirror fmin fmax kmin kmax (k f : float) :
  minus_branch fmin fmax kmin kmax (- k) (- f) = plus_branch fmin fmax kmin kmax k f.
Proof.
  unfold plus_branch, minus_branch, supplied, PyFloat.gt, PyFloat.lt.
  rewrite FloatFacts.ltb_opp_zero.
  destruct fmin, fmax, kmin, kmax;
    rewrite ?FloatFacts.ltb_opp_opp; reflexivity.
Qed.

Module FloatOrder.

Lemma SFcompare_antisym (a b : spec_float) :
  SFcompare b a = option_map CompOpp (SFcompare a b).
Proof.
  destruct a as [sa|sa| |sa ma ea], b as [sb|sb| |sb mb eb]; simpl;
    try reflexivity;
    try (destruct sa; reflexivity); try (destruct sb; reflexivity);
    try (destruct sa, sb; reflexivity).
  destruct sa, sb; simpl; try reflexivity; f_equal;
    rewrite (Z.compare_antisym ea eb); destruct (ea ?= eb)%Z; simpl;
    try reflexivity.
  - now rewrite (Pos.compare_cont_antisym ma mb Eq).
  - now rewrite (Pos.compare_cont_antisym ma mb Eq).
Qed.

(** [a < b] and [b < a] never hold together. *)
Lemma ltb_asym (a b : float) :
  PrimFloat.ltb a b = true -> PrimFloat.ltb b a = false.
Proof.
  rewrite !ltb_spec. unfold SFltb. rewrite (SFcompare_antisym (Prim2SF a)).
  destruct (SFcompare (Prim2SF a) (Prim2SF b)) as [[]|]; simpl; congruence.
Qed.

End FloatOrder.

(* ================================================================== *)
(** ** Indexes, dimensions and grids *)

Module XrFacts.

Lemma eqb_sym (x y : float) : PrimFloat.eqb x y = PrimFloat.eqb y x.
Proof.
  rewrite !eqb_spec. unfold SFeqb.
  rewrite (FloatOrder.SFcompare_antisym (Prim2SF x) (Prim2SF y)).
  destruct (SFcompare (Prim2SF x) (Prim2SF y)) as [[]|]; reflexivity.
Qed.

Lemma eqb_trans (x y z : float) :
  PrimFloat.eqb x y = true -> PrimFloat.eqb y z = true -> PrimFloat.eqb x z = true.
Proof.
  rewrite !eqb_spec. intros Hxy Hyz.
  destruct (FloatFacts.SFeqb_compare (Prim2SF x) (Prim2SF y) (Prim2SF z) Hxy) as [E _].
  unfold SFeqb in *. now rewrite E.
Qed.

(** A value that compares equal to another one is not NaN. *)
Lemma eqb_not_nan (x y : float) :
  PrimFloat.eqb x y = true -> PrimFloat.is_nan x = false /\ PrimFloat.is_nan y = false.
Proof.
  intros H. unfold PrimFloat.is_nan. split; apply negb_false_iff.
  - apply (eqb_trans H). now rewrite eqb_sym.
  - rewrite eqb_sym in H. apply (eqb_trans H). now rewrite eqb_sym.
Qed.

Lemma same_label_refl (x : float) : xr.same_label x x = true.
Proof.
  unfold xr.same_label, PrimFloat.is_nan.
  now destruct (PrimFloat.eqb x x).
Qed.

Lemma same_label_sym (x y : float) : xr.same_label x y = xr.same_label y x.
Proof.
  unfold xr.same_label. now rewrite eqb_sym, andb_comm.
Qed.

Lemma same_label_trans (x y z : float) :
  xr.same_label x y = true -> xr.same_label y z = true -> xr.same_label x z = true.
Proof.
  unfold xr.same_label. rewrite !orb_true_iff, !andb_true_iff.
  intros [Hxy | [Hx Hy]] [Hyz | [Hy' Hz]].
  - left. eapply eqb_trans; eauto.
  - apply eqb_not_nan in Hxy as [_ Hxy]. congruence.
  - apply eqb_not_nan in Hyz as [Hyz _]. congruence.
  - now right.
Qed.

Lemma index_equal_refl (i : list float) : xr.index_equal i i = true.
Proof.
  induction i as [|x i IH]; simpl; [reflexivity|].
  now rewrite same_label_refl.
Qed.

Lemma index_equal_sym (i j : list float) : xr.index_equal i j = xr.index_equal j i.
Proof.
  revert j; induction i as [|x i IH]; intros [|y j]; simpl; try reflexivity.
  now rewrite same_label_sym, IH.
Qed.

Lemma index_equal_trans (i j k : list float) :
  xr.index_equal i j = true -> xr.index_equal j k = true -> xr.index_equal i k = true.
Proof.
  revert j k; induction i as [|x i IH]; intros [|y j] [|z k]; simpl;
    try discriminate; auto.
  rewrite !andb_true_iff. intros [H1 H2] [H3 H4]. split.
  - eapply same_label_trans; eauto.
  - eapply IH; eauto.
Qed.

Section Lookup.

Variable V : Type.

Implicit Types l : list (string * V).

Lemma lookup_in (d : string) l (v : V) :
  xr.lookup d l = Some v -> In d (List.map fst l).
Proof.
  induction l as [|[d' u] l IH]; simpl; [discriminate|].
  destruct (String.eqb d d') eqn:E.
  - apply String.eqb_eq in E. auto.
  - auto.
Qed.

Lemma has_key_lookup l (d : string) :
  xr.has_key l d = match xr.lookup d l with Some _ => true | None => false end.
Proof.
  unfold xr.has_key. induction l as [|[d' u] l IH]; simpl; [reflexivity|].
  destruct (String.eqb d d'); simpl; auto.
Qed.

Lemma lookup_app (d : string) l1 l2 :
  xr.lookup d (l1 ++ l2)
  = match xr.lookup d l1 with Some v => Some v | None => xr.lookup d l2 end.
Proof.
  induction l1 as [|[d' u] l1 IH]; simpl; [reflexivity|].
  destruct (String.eqb d d'); auto.
Qed.

Lemma lookup_filter (P : string -> bool) (d : string) l :
  xr.lookup d (filter (fun kv => P (fst kv)) l)
  = if P d then xr.lookup d l else None.
Proof.
  induction l as [|[d' u] l IH]; simpl; [now destruct (P d)|].
  destruct (String.eqb d d') eqn:E.
  - apply String.eqb_eq in E. subst d'.
    destruct (P d) eqn:HP; simpl.
    + now rewrite String.eqb_refl.
    + exact IH.
  - destruct (P d'); simpl; [rewrite E|]; exact IH.
Qed.

Lemma lookup_union (d : string) l1 l2 :
  xr.lookup d (xr.union l1 l2)
  = match xr.lookup d l1 with Some v => Some v | None => xr.lookup d l2 end.
Proof.
  unfold xr.union. rewrite lookup_app.
  destruct (xr.lookup d l1) eqn:E; [reflexivity|].
  rewrite (lookup_filter (fun k => negb (xr.has_key l1 k))).
  now rewrite has_key_lookup, E.
Qed.

Lemma agree_spec (same : V -> V -> bool) l1 l2 :
  xr.agree same l1 l2 = true <->
  forall d u v, xr.lookup d l1 = Some u -> xr.lookup d l2 = Some v -> same u v = true.
Proof.
  unfold xr.agree. rewrite forallb_forall. split.
  - intros H d u v H1 H2. specialize (H d (lookup_in _ _ H1)).
    now rewrite H1, H2 in H.
  - intros H d _. destruct (xr.lookup d l1) eqn:H1; [|reflexivity].
    destruct (xr.lookup d l2) eqn:H2; [|reflexivity]. eauto.
Qed.

End Lookup.

Lemma compatible_spec {A B : Type} (a : DataArray A) (b : DataArray B) :
  xr.compatible a b = true <->
  (forall d m n, xr.lookup d (sizes a) = Some m -> xr.lookup d (sizes b) = Some n ->
                 m = n)
  /\ (forall d i j, xr.lookup d (coords a) = Some i -> xr.lookup d (coords b) = Some j ->
                    xr.index_equal i j = true).
Proof.
  unfold xr.compatible. rewrite andb_true_iff, !agree_spec. split.
  - intros [H1 H2]. split; [|exact H2].
    intros d m n Hm Hn. apply Nat.eqb_eq. eauto.
  - intros [H1 H2]. split; [|exact H2].
    intros d m n Hm Hn. apply Nat.eqb_eq. eauto.
Qed.

(** An array needs no alignment with itself. *)
Lemma compatible_refl {A B : Type} (a : DataArray A) (b : DataArray B) :
  sizes a = sizes b -> coords a = coords b -> xr.compatible a b = true.
Proof.
  intros Hs Hc. apply compatible_spec. rewrite Hs, Hc. split.
  - intros d m n Hm Hn. congruence.
  - intros d i j Hi Hj. assert (i = j) by congruence. subst. apply index_equal_refl.
Qed.

Lemma compatible_extends {A B C : Type}
    (x : DataArray A) (a : DataArray B) (y : DataArray C) :
  extends x a -> xr.compatible a y = true -> xr.compatible x y = true.
Proof.
  intros [Hs Hc]. rewrite !compatible_spec. intros [H1 H2]. split.
  - intros d m n Hm Hn. eauto.
  - intros d i j Hi Hj. eauto.
Qed.

Lemma extends_refl {A : Type} (a : DataArray A) : extends a a.
Proof. split; auto. Qed.

Lemma extends_map2 {A B C D : Type} (f : B -> C -> D)
    (x : DataArray A) (a : DataArray B) (y : DataArray C) :
  extends x a -> extends x (xr.map2 f a y).
Proof.
  intros [Hs Hc]. split; simpl; intros d v H; rewrite lookup_union.
  - now rewrite (Hs _ _ H).
  - now rewrite (Hc _ _ H).
Qed.

(** Arrays on one grid need no alignment, and their combination lies on
    the grid. *)
Lemma on_grid_compatible (G : grid) {A B : Type} (a : DataArray A) (b : DataArray B) :
  on_grid G a -> on_grid G b -> xr.compatible a b = true.
Proof.
  intros [Has Hac] [Hbs Hbc]. apply compatible_spec. split.
  - intros d m n Hm Hn. apply Has in Hm. apply Hbs in Hn. congruence.
  - intros d i j Hi Hj.
    destruct (Hac _ _ Hi) as (i' & Ei & Hi').
    destruct (Hbc _ _ Hj) as (j' & Ej & Hj').
    assert (i' = j') by congruence. subst j'.
    apply (index_equal_trans _ _ _ Hi'). now rewrite index_equal_sym.
Qed.

Lemma on_grid_map (G : grid) {A B : Type} (f : A -> B) (a : DataArray A) :
  on_grid G a -> on_grid G (xr.map f a).
Proof. intros H. exact H. Qed.

Lemma on_grid_map2 (G : grid) {A B C : Type} (f : A -> B -> C)
    (a : DataArray A) (b : DataArray B) :
  on_grid G a -> on_grid G b -> on_grid G (xr.map2 f a b).
Proof.
  intros [Has Hac] [Hbs Hbc]. split; simpl; intros d v; rewrite lookup_union.
  - destruct (xr.lookup d (sizes a)) eqn:E; [intros [= <-]|]; auto.
  - destruct (xr.lookup d (coords a)) eqn:E; [intros [= <-]|]; auto.
Qed.

Lemma on_grid_of_l (a b : DataArray float) : on_grid (grid_of a b) a.
Proof.
  split; simpl; intros d v H; rewrite H; [reflexivity|].
  exists v. split; [reflexivity | apply index_equal_refl].
Qed.

Lemma on_grid_of_r (a b : DataArray float) :
  xr.compatible a b = true -> on_grid (grid_of a b) b.
Proof.
  intros H. apply compatible_spec in H as [Hs Hc].
  split; simpl; intros d v H.
  - destruct (xr.lookup d (sizes a)) eqn:E; [|exact H].
    f_equal. eauto.
  - destruct (xr.lookup d (coords a)) as [i|] eqn:E.
    + exists i. split; [reflexivity|]. rewrite index_equal_sym. eauto.
    + exists v. split; [exact H | apply index_equal_refl].
Qed.

End XrFacts.

(** Raw coordinates need no alignment: their dimensions are
    "wavenumber" and "frequency". *)
Lemma raw_aligned (v u : list float) : aligned (ndarray v) (ndarray u) = true.
Proof. reflexivity. Qed.

(* ================================================================== *)
(** ** Reducing and combining predicate lists *)

Lemma reduce_from_app {A : Type} (f : A -> A -> result A) (l1 l2 : list A) (acc : A) :
  reduce_from f (l1 ++ l2) acc = bind (reduce_from f l1 acc) (reduce_from f l2).
Proof.
  revert acc; induction l1 as [|y l1 IH]; intros acc; simpl; [reflexivity|].
  destruct (f acc y); simpl; auto.
Qed.

Lemma logical_and_cases (x y : DataArray bool) :
  (xr.compatible x y = true /\ xr.logical_and x y = Return (xr.map2 andb x y))
  \/ (xr.compatible x y = false /\ xr.logical_and x y = Raise AlignmentError).
Proof.
  unfold xr.logical_and, xr.apply_ufunc.
  destruct (xr.compatible x y); auto.
Qed.

Section Combine.

Variable p : position.

Let at_p (a : DataArray bool) : bool := values a p.

(** What a reduction returns, when it returns. *)
Lemma reduce_from_value (l : list (DataArray bool)) (acc m : DataArray bool) :
  reduce_from xr.logical_and l acc = Return m ->
  values m p = values acc p && forallb at_p l.
Proof.
  revert acc; induction l as [|y l IH]; intros acc; simpl.
  - intros [= <-]. now rewrite andb_true_r.
  - destruct (logical_and_cases acc y) as [[_ ->] | [_ ->]]; simpl; [|discriminate].
    intros H. rewrite (IH _ H). simpl. now rewrite andb_assoc.
Qed.

Lemma reduce_value (l : list (DataArray bool)) (m : DataArray bool) :
  reduce xr.logical_and l = Return m -> values m p = forallb at_p l.
Proof.
  destruct l as [|x l]; simpl; [discriminate|]. apply reduce_from_value.
Qed.

Lemma combine_value (logical_plus logical_minus : list (DataArray bool))
    (mask : DataArray bool) :
  _combine_plus_minus logical_plus logical_minus = Return mask ->
  values mask p = forallb at_p logical_plus || forallb at_p logical_minus.
Proof.
  unfold _combine_plus_minus.
  destruct (reduce xr.logical_and logical_plus) as [mp|] eqn:Ep; simpl; [|discriminate].
  destruct (reduce xr.logical_and logical_minus) as [mm|] eqn:Em; simpl; [|discriminate].
  unfold xr.logical_or, xr.apply_ufunc.
  destruct (xr.compatible mp mm); [|discriminate].
  intros [= <-]. simpl.
  now rewrite (reduce_value _ Ep), (reduce_value _ Em).
Qed.

Lemma combine_value_some (logical_plus logical_minus : list (DataArray bool)) (b : bool) :
  mask_value (_combine_plus_minus logical_plus logical_minus) p = Some b ->
  b = forallb at_p logical_plus || forallb at_p logical_minus.
Proof.
  destruct (_combine_plus_minus logical_plus logical_minus) as [m|] eqn:E;
    simpl; [|discriminate].
  intros [= <-]. now apply combine_value.
Qed.

Lemma box_plus_value (wavenumber frequency : DataArray float) fmin fmax kmin kmax :
  forallb at_p (box_plus wavenumber frequency fmin fmax kmin kmax)
  = plus_branch fmin fmax kmin kmax (values wavenumber p) (values frequency p).
Proof.
  unfold box_plus, plus_branch, at_p.
  destruct fmin, fmax, kmin, kmax; simpl;
    rewrite ?andb_true_r, ?andb_assoc; reflexivity.
Qed.

Lemma box_minus_value (wavenumber frequency : DataArray float) fmin fmax kmin kmax :
  forallb at_p (box_minus wavenumber frequency fmin fmax kmin kmax)
  = minus_branch fmin fmax kmin kmax (values wavenumber p) (values frequency p).
Proof.
  unfold box_minus, minus_branch, at_p.
  destruct fmin, fmax, kmin, kmax; simpl;
    rewrite ?andb_true_r, ?andb_assoc; reflexivity.
Qed.

End Combine.

(** On one grid a reduction returns, and its result lies on the grid. *)
Lemma reduce_from_on_grid (G : grid) (l : list (DataArray bool)) (acc : DataArray bool) :
  on_grid G acc -> Forall (on_grid G (A := bool)) l ->
  exists m, reduce_from xr.logical_and l acc = Return m /\ on_grid G m.
Proof.
  intros Hacc Hl. revert acc Hacc.
  induction Hl as [|y l Hy Hl IH]; intros acc Hacc; simpl.
  - eauto.
  - unfold xr.logical_and, xr.apply_ufunc.
    rewrite (XrFacts.on_grid_compatible Hacc Hy). simpl.
    apply IH. now apply XrFacts.on_grid_map2.
Qed.

Lemma reduce_on_grid (G : grid) (l : list (DataArray bool)) :
  l <> [] -> Forall (on_grid G (A := bool)) l ->
  exists m, reduce xr.logical_and l = Return m /\ on_grid G m.
Proof.
  destruct l as [|x l]; [congruence|]. intros _ H.
  inversion H; subst. simpl. now apply reduce_from_on_grid.
Qed.

Lemma combine_on_grid (G : grid) (logical_plus logical_minus : list (DataArray bool)) :
  logical_plus <> [] -> logical_minus <> [] ->
  Forall (on_grid G (A := bool)) logical_plus ->
  Forall (on_grid G (A := bool)) logical_minus ->
  exists mask, _combine_plus_minus logical_plus logical_minus = Return mask
               /\ on_grid G mask.
Proof.
  intros Np Nm Hp Hm. unfold _combine_plus_minus.
  destruct (reduce_on_grid Np Hp) as (mp & -> & Gp).
  destruct (reduce_on_grid Nm Hm) as (mm & -> & Gm). simpl.
  unfold xr.logical_or, xr.apply_ufunc.
  rewrite (XrFacts.on_grid_compatible Gp Gm).
  eexists. split; [reflexivity|]. now apply XrFacts.on_grid_map2.
Qed.

Lemma combine_value_on_grid (G : grid)
    (logical_plus logical_minus : list (DataArray bool)) (p : position) :
  logical_plus <> [] -> logical_minus <> [] ->
  Forall (on_grid G (A := bool)) logical_plus ->
  Forall (on_grid G (A := bool)) logical_minus ->
  mask_value (_combine_plus_minus logical_plus logical_minus) p
  = Some (forallb (fun a => values a p) logical_plus
          || forallb (fun a => values a p) logical_minus).
Proof.
  intros Np Nm Hp Hm.
  destruct (combine_on_grid Np Nm Hp Hm) as (mask & E & _).
  rewrite E. simpl. f_equal. now apply combine_value.
Qed.

(** The only failure of a reduction is a refused alignment. *)
Lemma reduce_from_error (l : list (DataArray bool)) (acc : DataArray bool) (e : exception) :
  reduce_from xr.logical_and l acc = Raise e -> e = AlignmentError.
Proof.
  revert acc; induction l as [|y l IH]; intros acc; simpl; [discriminate|].
  destruct (logical_and_cases acc y) as [[_ ->] | [_ ->]]; simpl.
  - apply IH.
  - congruence.
Qed.

Lemma combine_error (logical_plus logical_minus : list (DataArray bool)) (e : exception) :
  logical_plus <> [] -> logical_minus <> [] ->
  _combine_plus_minus logical_plus logical_minus = Raise e -> e = AlignmentError.
Proof.
  destruct logical_plus as [|x xs]; [congruence|].
  destruct logical_minus as [|y ys]; [congruence|]. intros _ _.
  unfold _combine_plus_minus. simpl.
  destruct (reduce_from xr.logical_and xs x) as [mp|] eqn:Ep; simpl.
  - destruct (reduce_from xr.logical_and ys y) as [mm|] eqn:Em; simpl.
    + unfold xr.logical_or, xr.apply_ufunc.
      destruct (xr.compatible mp mm); congruence.
    + intros [= <-]. eapply reduce_from_error; eauto.
  - intros [= <-]. eapply reduce_from_error; eauto.
Qed.

(** A reduction that returns has met only predicates that need no
    alignment with the first one. *)
Lemma reduce_from_compatible (x : DataArray bool)
    (l : list (DataArray bool)) (acc m : DataArray bool) :
  extends x acc ->
  reduce_from xr.logical_and l acc = Return m ->
  Forall (fun y => xr.compatible x y = true) l.
Proof.
  revert acc; induction l as [|y l IH]; intros acc Hx; simpl; [constructor|].
  destruct (logical_and_cases acc y) as [[Hc ->] | [_ ->]]; simpl; [|discriminate].
  intros H. constructor.
  - eapply XrFacts.compatible_extends; eauto.
  - eapply IH; [|exact H]. now apply XrFacts.extends_map2.
Qed.

Lemma combine_compatible (x : DataArray bool)
    (xs logical_minus : list (DataArray bool)) (mask : DataArray bool) :
  _combine_plus_minus (x :: xs) logical_minus = Return mask ->
  Forall (fun y => xr.compatible x y = true) xs.
Proof.
  unfold _combine_plus_minus. simpl.
  destruct (reduce_from xr.logical_and xs x) as [mp|] eqn:Ep; simpl; [|discriminate].
  intros _. eapply reduce_from_compatible; [apply XrFacts.extends_refl | exact Ep].
Qed.

Lemma box_plus_nonempty wavenumber frequency fmin fmax kmin kmax (l : list (DataArray bool)) :
  box_plus wavenumber frequency fmin fmax kmin kmax ++ l <> [].
Proof. discriminate. Qed.

Lemma box_minus_nonempty wavenumber frequency fmin fmax kmin kmax (l : list (DataArray bool)) :
  box_minus wavenumber frequency fmin fmax kmin kmax ++ l <> [].
Proof. discriminate. Qed.

Lemma box_plus_not_nil wavenumber frequency fmin fmax kmin kmax :
  box_plus wavenumber frequency fmin fmax kmin kmax <> [].
Proof. discriminate. Qed.

Lemma box_minus_not_nil wavenumber frequency fmin fmax kmin kmax :
  box_minus wavenumber frequency fmin fmax kmin kmax <> [].
Proof. discriminate. Qed.

(** The predicates of the box lie on a grid that holds the frequency
    and, when a bound on the wavenumber is supplied, the wavenumber. *)
Lemma box_on (G : grid) (wavenumber frequency : DataArray float) fmin fmax kmin kmax :
  on_grid G frequency ->
  (kmin <> None \/ kmax <> None -> on_grid G wavenumber) ->
  Forall (on_grid G (A := bool)) (box_plus wavenumber frequency fmin fmax kmin kmax)
  /\ Forall (on_grid G (A := bool)) (box_minus wavenumber frequency fmin fmax kmin kmax).
Proof.
  intros HF HK. unfold box_plus, box_minus, xr.gt, xr.lt.
  destruct fmin, fmax, kmin, kmax; cbn [when app];
    split;
    repeat (apply Forall_cons;
            [ first [ exact HF
                    | apply HK; first [left; discriminate | right; discriminate] ] |]);
    apply Forall_nil.
Qed.

(** The predicates of an aligned box lie on the grid of the two
    coordinates. *)
Lemma box_on_grid (w f : array) fmin fmax kmin kmax :
  box_aligned w f kmin kmax = true ->
  let wavenumber := fst (_wrap_to_xarray w f) in
  let frequency := snd (_wrap_to_xarray w f) in
  Forall (on_grid (grid_of frequency wavenumber) (A := bool))
         (box_plus wavenumber frequency fmin fmax kmin kmax)
  /\ Forall (on_grid (grid_of frequency wavenumber) (A := bool))
            (box_minus wavenumber frequency fmin fmax kmin kmax).
Proof.
  intros Ha wavenumber frequency. apply box_on.
  - apply XrFacts.on_grid_of_l.
  - intros H. apply XrFacts.on_grid_of_r.
    unfold box_aligned, aligned in Ha. fold wavenumber frequency in Ha.
    destruct kmin, kmax; try exact Ha. destruct H; congruence.
Qed.

(** A combination that starts with the box and returns has an aligned
    box. *)
Lemma box_returns_aligned (w f : array) fmin fmax kmin kmax
    (l logical_minus : list (DataArray bool)) (mask : DataArray bool) :
  _combine_plus_minus
    (box_plus (fst (_wrap_to_xarray w f)) (snd (_wrap_to_xarray w f))
              fmin fmax kmin kmax ++ l) logical_minus = Return mask ->
  box_aligned w f kmin kmax = true.
Proof.
  unfold box_plus. cbn [app]. intros H.
  apply combine_compatible in H. rewrite Forall_forall in H.
  unfold box_aligned, aligned.
  destruct kmin as [kmin|]; [|destruct kmax as [kmax|]; [|reflexivity]].
  - apply (H (xr.gt (fst (_wrap_to_xarray w f)) kmin)).
    destruct fmin, fmax, kmax; simpl; auto 10.
  - apply (H (xr.lt (fst (_wrap_to_xarray w f)) kmax)).
    destruct fmin, fmax; simpl; auto 10.
Qed.

(* ================================================================== *)
(** ** What [kf_mask] computes *)

Lemma first_violation_valid fmin fmax kmin kmax :
  first_violation fmin fmax kmin kmax = None <->
  bounds_valid fmin fmax kmin kmax = true.
Proof.
  unfold first_violation, bounds_valid.
  destruct (positive fmin), (positive fmax), (ordered fmin fmax),
           (ordered kmin kmax); simpl; split; congruence.
Qed.

Lemma first_violation_names fmin fmax kmin kmax msg :
  first_violation fmin fmax kmin kmax = Some msg ->
  names_violation fmin fmax kmin kmax msg.
Proof.
  unfold first_violation, names_violation.
  destruct (positive fmin), (positive fmax), (ordered fmin fmax),
           (ordered kmin kmax); simpl; intros [= <-]; tauto.
Qed.

(** [kf_mask] raises the first violated check, and otherwise returns
    the two predicate lists or their combination. *)
Lemma kf_mask_eq (w f : array) fmin fmax kmin kmax (return_individual : bool) :
  kf_mask w f fmin fmax kmin kmax return_individual =
  match first_violation fmin fmax kmin kmax with
  | Some msg => Raise (AssertionError msg)
  | None =>
      let wavenumber := fst (_wrap_to_xarray w f) in
      let frequency := snd (_wrap_to_xarray w f) in
      let logical_plus := box_plus wavenumber frequency fmin fmax kmin kmax in
      let logical_minus := box_minus wavenumber frequency fmin fmax kmin kmax in
      if return_individual then Return (Individual logical_plus logical_minus)
      else (mask <- _combine_plus_minus logical_plus logical_minus ;;
            Return (Combined mask))
  end.
Proof.
  unfold kf_mask, first_violation, positive, ordered, supplied, assert_.
  destruct fmin as [a|], fmax as [b|], kmin as [c|], kmax as [d|]; simpl;
    repeat match goal with
           | |- context [if negb ?c then _ else _] => destruct c; simpl
           | |- context [if ?c then Return tt else _] => destruct c; simpl
           end;
    reflexivity.
Qed.

Lemma kf_mask_individual (w f : array) fmin fmax kmin kmax :
  bounds_valid fmin fmax kmin kmax = true ->
  kf_mask w f fmin fmax kmin kmax true
  = Return (Individual
      (box_plus (fst (_wrap_to_xarray w f)) (snd (_wrap_to_xarray w f))
                fmin fmax kmin kmax)
      (box_minus (fst (_wrap_to_xarray w f)) (snd (_wrap_to_xarray w f))
                 fmin fmax kmin kmax)).
Proof.
  intros Hv. rewrite kf_mask_eq.
  apply first_violation_valid in Hv. now rewrite Hv.
Qed.

(* ================================================================== *)
(** ** What [wave_mask] and [td_mask] compute *)

Section WaveMask.

Variables g radius_earth beta : float.
Variable wave_func : string -> option dispersion.

(** [wave_mask] raises the first violated bound check, then rejects an
    unknown wave type, and otherwise combines the box with the
    dispersion predicates. *)
Lemma wave_mask_eq (w f : array) (wave_type : string)
    fmin fmax kmin kmax hmin hmax (n : Z) :
  wave_mask g radius_earth beta wave_func w f wave_type
            fmin fmax kmin kmax hmin hmax n =
  match first_violation fmin fmax kmin kmax with
  | Some msg => Raise (AssertionError msg)
  | None =>
      if str_in wave_type wave_types then
        match wave_func wave_type with
        | Some func =>
            let wavenumber := fst (_wrap_to_xarray w f) in
            let frequency := snd (_wrap_to_xarray w f) in
            _combine_plus_minus
              (wave_plus g radius_earth beta func wavenumber frequency
                         fmin fmax kmin kmax hmin hmax n)
              (wave_minus g radius_earth beta wave_type func wavenumber frequency
                          fmin fmax kmin kmax hmin hmax n)
        | None => Raise (KeyError wave_type)
        end
      else Raise (ValueError (msg_wave_type wave_type))
  end.
Proof.
  unfold wave_mask.
  destruct (_wrap_to_xarray w f) as [wavenumber frequency] eqn:E.
  rewrite kf_mask_eq.
  destruct (first_violation fmin fmax kmin kmax); [reflexivity|].
  cbn [bind unpack_branches fst snd _wrap_to_xarray].
  destruct (str_in wave_type wave_types); [|reflexivity].
  cbn [negb]. unfold wave_func_getitem.
  destruct (wave_func wave_type) as [func|]; [|reflexivity].
  cbn [bind]. unfold wave_plus, wave_minus, dispersion_at,
    hmin_minus_comparator, hmax_minus_comparator, omega_squared.
  destruct hmin as [hmin|], hmax as [hmax|]; cbn [when];
    repeat match goal with
           | |- context [_nondim_k_omega ?a ?b ?c ?x ?y ?h] =>
               destruct (_nondim_k_omega a b c x y h)
           end;
    destruct (str_in wave_type ["ig"; "eig"; "mrg"]%string);
    rewrite <- ?app_assoc, ?app_nil_r; reflexivity.
Qed.

(** A mask that [wave_mask] returns combines two lists that start with
    the box. *)
Lemma wave_mask_returns (w f : array) (wave_type : string)
    fmin fmax kmin kmax hmin hmax (n : Z) (mask : DataArray bool) :
  wave_mask g radius_earth beta wave_func w f wave_type
            fmin fmax kmin kmax hmin hmax n = Return mask ->
  first_violation fmin fmax kmin kmax = None
  /\ exists lp lm,
      _combine_plus_minus
        (box_plus (fst (_wrap_to_xarray w f)) (snd (_wrap_to_xarray w f))
                  fmin fmax kmin kmax ++ lp)
        (box_minus (fst (_wrap_to_xarray w f)) (snd (_wrap_to_xarray w f))
                   fmin fmax kmin kmax ++ lm) = Return mask.
Proof.
  rewrite wave_mask_eq.
  destruct (first_violation fmin fmax kmin kmax); [discriminate|].
  destruct (str_in wave_type wave_types); [|discriminate].
  destruct (wave_func wave_type) as [func|]; [|discriminate].
  cbv zeta. unfold wave_plus, wave_minus.
  intros H. split; [reflexivity|]. eauto.
Qed.

End WaveMask.

Section TdMask.

Variable arithmetic_join :
  DataArray float -> DataArray float -> result (DataArray float).

(** [td_mask] raises the first violated bound check, then takes the two
    sums, twice each, and combines the box with the boundaries. *)
Lemma td_mask_eq (w f : array) fmin fmax kmin kmax :
  td_mask arithmetic_join w f fmin fmax kmin kmax =
  match first_violation fmin fmax kmin kmax with
  | Some msg => Raise (AssertionError msg)
  | None =>
      let wavenumber := fst (_wrap_to_xarray w f) in
      let frequency := snd (_wrap_to_xarray w f) in
      line1 <- xr.add2 arithmetic_join (xr.rmul 84%float frequency) wavenumber ;;
      line1' <- xr.add2 arithmetic_join (xr.rmul 84%float frequency) wavenumber ;;
      line2 <- xr.add2 arithmetic_join (xr.rmul 210%float frequency)
                                       (xr.rmul 2.5%float wavenumber) ;;
      line2' <- xr.add2 arithmetic_join (xr.rmul 210%float frequency)
                                        (xr.rmul 2.5%float wavenumber) ;;
      _combine_plus_minus
        (box_plus wavenumber frequency fmin fmax kmin kmax ++ td_plus_of line1 line2)
        (box_minus wavenumber frequency fmin fmax kmin kmax ++ td_minus_of line1' line2')
  end.
Proof.
  unfold td_mask.
  destruct (_wrap_to_xarray w f) as [wavenumber frequency] eqn:E.
  rewrite kf_mask_eq.
  destruct (first_violation fmin fmax kmin kmax); [reflexivity|].
  cbn [bind unpack_branches fst snd _wrap_to_xarray].
  destruct (xr.add2 arithmetic_join (xr.rmul 84 frequency) wavenumber);
    cbn [bind]; [|reflexivity].
  destruct (xr.add2 arithmetic_join (xr.rmul 210 frequency) (xr.rmul 2.5 wavenumber));
    cbn [bind]; [|reflexivity].
  unfold td_plus_of, td_minus_of.
  rewrite <- !app_assoc. reflexivity.
Qed.

(** On coordinates that need no alignment the sums are taken element by
    element. *)
Lemma td_mask_aligned (w f : array) fmin fmax kmin kmax :
  aligned w f = true ->
  td_mask arithmetic_join w f fmin fmax kmin kmax =
  match first_violation fmin fmax kmin kmax with
  | Some msg => Raise (AssertionError msg)
  | None =>
      let wavenumber := fst (_wrap_to_xarray w f) in
      let frequency := snd (_wrap_to_xarray w f) in
      _combine_plus_minus
        (box_plus wavenumber frequency fmin fmax kmin kmax
           ++ td_plus_list wavenumber frequency)
        (box_minus wavenumber frequency fmin fmax kmin kmax
           ++ td_minus_list wavenumber frequency)
  end.
Proof.
  intros Ha. rewrite td_mask_eq.
  destruct (first_violation fmin fmax kmin kmax); [reflexivity|].
  cbv zeta. unfold xr.add2.
  change (xr.compatible (xr.rmul 84 (snd (_wrap_to_xarray w f)))
                        (fst (_wrap_to_xarray w f)))
    with (aligned w f).
  change (xr.compatible (xr.rmul 210 (snd (_wrap_to_xarray w f)))
                        (xr.rmul 2.5 (fst (_wrap_to_xarray w f))))
    with (aligned w f).
  rewrite Ha. reflexivity.
Qed.

(** A mask that [td_mask] returns combines two lists that start with
    the box. *)
Lemma td_mask_returns (w f : array) fmin fmax kmin kmax (mask : DataArray bool) :
  td_mask arithmetic_join w f fmin fmax kmin kmax = Return mask ->
  first_violation fmin fmax kmin kmax = None
  /\ exists lp lm,
      _combine_plus_minus
        (box_plus (fst (_wrap_to_xarray w f)) (snd (_wrap_to_xarray w f))
                  fmin fmax kmin kmax ++ lp)
        (box_minus (fst (_wrap_to_xarray w f)) (snd (_wrap_to_xarray w f))
                   fmin fmax kmin kmax ++ lm) = Return mask.
Proof.
  rewrite td_mask_eq.
  destruct (first_violation fmin fmax kmin kmax); [discriminate|].
  cbv zeta.
  destruct (xr.add2 arithmetic_join _ (fst (_wrap_to_xarray w f)));
    cbn [bind]; [|discriminate].
  destruct (xr.add2 arithmetic_join _ (xr.rmul 2.5 (fst (_wrap_to_xarray w f))));
    cbn [bind]; [|discriminate].
  intros H. split; [reflexivity|]. eauto.
Qed.

End TdMask.

(* ================================================================== *)
(** ** Auxiliary facts about the branches *)

Lemma mirrored_ltb (x y z : float) :
  mirrored x y ->
  PrimFloat.ltb y z = PrimFloat.ltb (- x) z /\
  PrimFloat.ltb z y = PrimFloat.ltb z (- x).
Proof.
  intros [-> | H]; [split; reflexivity | now apply FloatFacts.eqb_ltb].
Qed.

Lemma plus_branch_mirrored fmin fmax kmin kmax (k f k' f' : float) :
  mirrored k k' -> mirrored f f' ->
  plus_branch fmin fmax kmin kmax k' f' = minus_branch fmin fmax kmin kmax k f.
Proof.
  intros Hk Hf. rewrite <- plus_branch_mirror.
  unfold plus_branch, supplied, PyFloat.gt, PyFloat.lt.
  destruct fmin, fmax, kmin, kmax;
    repeat match goal with
           | |- context [PrimFloat.ltb ?z k'] =>
               rewrite (proj2 (mirrored_ltb z Hk))
           | |- context [PrimFloat.ltb k' ?z] =>
               rewrite (proj1 (mirrored_ltb z Hk))
           | |- context [PrimFloat.ltb ?z f'] =>
               rewrite (proj2 (mirrored_ltb z Hf))
           | |- context [PrimFloat.ltb f' ?z] =>
               rewrite (proj1 (mirrored_ltb z Hf))
           end; reflexivity.
Qed.

Lemma minus_branch_mirrored fmin fmax kmin kmax (k f k' f' : float) :
  mirrored k k' -> mirrored f f' ->
  minus_branch fmin fmax kmin kmax k' f' = plus_branch fmin fmax kmin kmax k f.
Proof.
  intros Hk Hf. rewrite <- minus_branch_mirror.
  unfold minus_branch, supplied, PyFloat.gt, PyFloat.lt.
  destruct fmin, fmax, kmin, kmax;
    repeat match goal with
           | |- context [PrimFloat.ltb ?z k'] =>
               rewrite (proj2 (mirrored_ltb z Hk))
           | |- context [PrimFloat.ltb k' ?z] =>
               rewrite (proj1 (mirrored_ltb z Hk))
           | |- context [PrimFloat.ltb ?z f'] =>
               rewrite (proj2 (mirrored_ltb z Hf))
           | |- context [PrimFloat.ltb f' ?z] =>
               rewrite (proj1 (mirrored_ltb z Hf))
           end; reflexivity.
Qed.

(** At a frequency equal to zero both branches of the box are closed. *)
Lemma plus_branch_zero fmin fmax kmin kmax (k f : float) :
  PrimFloat.eqb f 0 = true -> plus_branch fmin fmax kmin kmax k f = false.
Proof.
  intros H. apply FloatFacts.zero_not_lt in H as [H _].
  unfold plus_branch, PyFloat.gt. now rewrite H.
Qed.

Lemma minus_branch_zero fmin fmax kmin kmax (k f : float) :
  PrimFloat.eqb f 0 = true -> minus_branch fmin fmax kmin kmax k f = false.
Proof.
  intros H. apply FloatFacts.zero_not_lt in H as [_ H].
  unfold minus_branch, PyFloat.lt. now rewrite H.
Qed.

Lemma combined_value_bind (r : result (DataArray bool)) (p : position) :
  combined_value (bind r (fun mask => Return (Combined mask))) p = mask_value r p.
Proof. destruct r; reflexivity. Qed.

(** The value of the combined box mask at a bin, when the bounds pass:
    the mask exists exactly when the box is aligned. *)
Lemma box_value (w f : array) fmin fmax kmin kmax (p : position) :
  first_violation fmin fmax kmin kmax = None ->
  combined_value (kf_mask w f fmin fmax kmin kmax false) p
  = if box_aligned w f kmin kmax
    then Some (plus_branch fmin fmax kmin kmax (wavenumber_at w f p) (frequency_at w f p)
               || minus_branch fmin fmax kmin kmax (wavenumber_at w f p)
                    (frequency_at w f p))
    else None.
Proof.
  intros Hv. rewrite kf_mask_eq, Hv. cbv zeta.
  rewrite combined_value_bind.
  destruct (box_aligned w f kmin kmax) eqn:Ha.
  - destruct (@box_on_grid w f fmin fmax kmin kmax Ha) as [Hp Hm].
    erewrite combine_value_on_grid;
      [| apply box_plus_not_nil | apply box_minus_not_nil | exact Hp | exact Hm].
    now rewrite box_plus_value, box_minus_value.
  - destruct (_combine_plus_minus _ _) as [mask|] eqn:E; [|reflexivity].
    rewrite <- (app_nil_r (box_plus _ _ _ _ _ _)) in E.
    apply box_returns_aligned in E. congruence.
Qed.

(** A mask combined from lists that start with the box: its value at a
    bin, and the box mask for the same bounds. *)
Lemma over_box_value (w f : array) fmin fmax kmin kmax
    (lp lm : list (DataArray bool)) (mask : DataArray bool) (p : position) :
  _combine_plus_minus
    (box_plus (fst (_wrap_to_xarray w f)) (snd (_wrap_to_xarray w f))
              fmin fmax kmin kmax ++ lp)
    (box_minus (fst (_wrap_to_xarray w f)) (snd (_wrap_to_xarray w f))
               fmin fmax kmin kmax ++ lm) = Return mask ->
  values mask p
  = plus_branch fmin fmax kmin kmax (wavenumber_at w f p) (frequency_at w f p)
      && forallb (fun a => values a p) lp
    || minus_branch fmin fmax kmin kmax (wavenumber_at w f p) (frequency_at w f p)
      && forallb (fun a => values a p) lm.
Proof.
  intros H. rewrite (@combine_value p _ _ _ H).
  now rewrite !forallb_app, box_plus_value, box_minus_value.
Qed.

Lemma over_box_within (w f : array) fmin fmax kmin kmax
    (lp lm : list (DataArray bool)) (mask : DataArray bool) (p : position) :
  first_violation fmin fmax kmin kmax = None ->
  _combine_plus_minus
    (box_plus (fst (_wrap_to_xarray w f)) (snd (_wrap_to_xarray w f))
              fmin fmax kmin kmax ++ lp)
    (box_minus (fst (_wrap_to_xarray w f)) (snd (_wrap_to_xarray w f))
               fmin fmax kmin kmax ++ lm) = Return mask ->
  combined_value (kf_mask w f fmin fmax kmin kmax false) p
  = Some (plus_branch fmin fmax kmin kmax (wavenumber_at w f p) (frequency_at w f p)
          || minus_branch fmin fmax kmin kmax (wavenumber_at w f p) (frequency_at w f p)).
Proof.
  intros Hv H. rewrite box_value by assumption.
  now rewrite (@box_returns_aligned _ _ _ _ _ _ _ _ _ H).
Qed.

(* ================================================================== *)
(** ** The box mask *)

Lemma combined_value_some (r : result kf_output) (p : position) (b : bool) :
  combined_value r p = Some b ->
  exists mask, r = Return (Combined mask) /\ values mask p = b.
Proof.
  destruct r as [[mask|lp lm]|e]; simpl; try discriminate.
  intros [= <-]. eauto.
Qed.

(** With valid bounds and a box that is not aligned, combining the
    predicates fails: xarray refuses to align them. *)
Lemma box_not_aligned (w f : array) fmin fmax kmin kmax :
  first_violation fmin fmax kmin kmax = None ->
  box_aligned w f kmin kmax = false ->
  kf_mask w f fmin fmax kmin kmax false = Raise AlignmentError.
Proof.
  intros Hv Ha. rewrite kf_mask_eq, Hv. cbv zeta.
  destruct (_combine_plus_minus _ _) as [mask|e] eqn:E; simpl.
  - rewrite <- (app_nil_r (box_plus _ _ _ _ _ _)) in E.
    apply box_returns_aligned in E. congruence.
  - apply combine_error in E; [now subst | apply box_plus_not_nil
                                | apply box_minus_not_nil].
Qed.

(** C1.  For every wavenumber/frequency grid and every valid combination
    of the optional bounds, the value of the combined [kf_mask] at a bin
    is true exactly when the frequency is positive and every supplied
    plus predicate holds there ([frequency > fmin], [frequency < fmax],
    [wavenumber > kmin], [wavenumber < kmax]), or the frequency is
    negative and every supplied mirrored predicate holds
    ([frequency < -fmin], [frequency > -fmax], [wavenumber < -kmin],
    [wavenumber > -kmax]).  The mask exists exactly when the predicates
    of the box need no alignment, which is the case of raw coordinates
    and of a box without bounds on the wavenumber; otherwise no mask is
    returned. *)
Theorem kf_mask_bin (w f : array) (fmin fmax kmin kmax : option float) (p : position) :
  bounds_valid fmin fmax kmin kmax = true ->
  combined_value (kf_mask w f fmin fmax kmin kmax false) p
  = if box_aligned w f kmin kmax
    then Some (plus_branch fmin fmax kmin kmax (wavenumber_at w f p) (frequency_at w f p)
               || minus_branch fmin fmax kmin kmax (wavenumber_at w f p)
                    (frequency_at w f p))
    else None.
Proof.
  intros Hv. apply first_violation_valid in Hv.
  rewrite kf_mask_eq, Hv. cbv zeta.
  rewrite combined_value_bind.
  destruct (box_aligned w f kmin kmax) eqn:Ha.
  - destruct (@box_on_grid w f fmin fmax kmin kmax Ha) as [Hp Hm].
    erewrite combine_value_on_grid;
      [| apply box_plus_not_nil | apply box_minus_not_nil | exact Hp | exact Hm].
    now rewrite box_plus_value, box_minus_value.
  - assert (E := @box_not_aligned w f fmin fmax kmin kmax Hv Ha).
    rewrite kf_mask_eq, Hv in E. cbv zeta in E.
    destruct (_combine_plus_minus _ _); [discriminate | reflexivity].
Qed.

(** On the grid of wavenumbers -3, 0, 3 and frequencies -0.25, 0, 0.25,
    with the box 0.125 < f < 0.5, 1 < k < 5: the bin (3, 0.25) is
    selected. *)
Lemma kf_mask_bin_witness :
  combined_value
    (kf_mask Sample.wavenumber Sample.frequency
             (Some 0.125%float) (Some 0.5%float) (Some 1%float) (Some 5%float) false)
    (bin 2 2)
  = Some true.
Proof.
  exact (kf_mask_bin Sample.wavenumber Sample.frequency
           (Some 0.125%float) (Some 0.5%float) (Some 1%float) (Some 5%float)
           (bin 2 2) eq_refl).
Defined.

(** C3.  For every grid and every valid combination of bounds, a
    combined [kf_mask] takes the same value at a bin (k, f) and at the
    bin (-k, -f); and the mask is returned when the predicates of the
    box need no alignment. *)
Theorem kf_mask_sign_flip (w f : array) (fmin fmax kmin kmax : option float)
    (p q : position) :
  bounds_valid fmin fmax kmin kmax = true ->
  mirrored (wavenumber_at w f p) (wavenumber_at w f q) ->
  mirrored (frequency_at w f p) (frequency_at w f q) ->
  (forall mask,
      kf_mask w f fmin fmax kmin kmax false = Return (Combined mask) ->
      values mask q = values mask p)
  /\ (box_aligned w f kmin kmax = true ->
      exists mask, kf_mask w f fmin fmax kmin kmax false = Return (Combined mask)).
Proof.
  intros Hv Hk Hf. apply first_violation_valid in Hv. split.
  - intros mask H.
    assert (Hp : combined_value (kf_mask w f fmin fmax kmin kmax false) p
                 = Some (values mask p)) by now rewrite H.
    assert (Hq : combined_value (kf_mask w f fmin fmax kmin kmax false) q
                 = Some (values mask q)) by now rewrite H.
    rewrite box_value in Hp, Hq by assumption.
    destruct (box_aligned w f kmin kmax); [|discriminate].
    rewrite (plus_branch_mirrored fmin fmax kmin kmax Hk Hf) in Hq.
    rewrite (minus_branch_mirrored fmin fmax kmin kmax Hk Hf) in Hq.
    rewrite orb_comm in Hq. congruence.
  - intros Ha.
    assert (Hp := @box_value w f fmin fmax kmin kmax p Hv).
    rewrite Ha in Hp. apply combined_value_some in Hp as (mask & E & _). eauto.
Qed.

(** The bins (3, 0.25) and (-3, -0.25) of the sample grid. *)
Lemma kf_mask_sign_flip_witness :
  exists mask,
    kf_mask Sample.wavenumber Sample.frequency
            (Some 0.125%float) (Some 0.5%float) (Some 1%float) (Some 5%float) false
    = Return (Combined mask)
    /\ values mask (bin 0 0) = values mask (bin 2 2)
    /\ values mask (bin 2 2) = true.
Proof.
  eexists. split; [reflexivity|]. split; [|reflexivity].
  apply (proj1 (@kf_mask_sign_flip Sample.wavenumber Sample.frequency
           (Some 0.125%float) (Some 0.5%float) (Some 1%float) (Some 5%float)
           (bin 2 2) (bin 0 0) eq_refl (or_introl eq_refl) (or_introl eq_refl))).
  reflexivity.
Defined.

(** C4.  [kf_mask] fails with an assertion error, returning neither a
    mask nor the branch lists, whenever a supplied [fmin] or [fmax] is
    not greater than 0, or [fmin] is not less than [fmax], or [kmin] is
    not less than [kmax] (both supplied); the message is the one of a
    violated constraint and names its parameter.  When every constraint
    holds no such error is raised: the call returns, unless it has to
    combine predicates that need alignment, which xarray refuses. *)
Theorem kf_mask_validation (w f : array) (fmin fmax kmin kmax : option float)
    (return_individual : bool) :
  if bounds_valid fmin fmax kmin kmax
  then if return_individual || box_aligned w f kmin kmax
       then exists out, kf_mask w f fmin fmax kmin kmax return_individual = Return out
       else kf_mask w f fmin fmax kmin kmax return_individual = Raise AlignmentError
  else exists msg,
      kf_mask w f fmin fmax kmin kmax return_individual = Raise (AssertionError msg)
      /\ names_violation fmin fmax kmin kmax msg.
Proof.
  destruct (bounds_valid fmin fmax kmin kmax) eqn:Hv.
  - apply first_violation_valid in Hv.
    destruct return_individual; cbn [orb].
    + rewrite kf_mask_eq, Hv. cbv zeta. eexists; reflexivity.
    + destruct (box_aligned w f kmin kmax) eqn:Ha.
      * assert (Hp := @box_value w f fmin fmax kmin kmax (bin 0 0) Hv).
        rewrite Ha in Hp. apply combined_value_some in Hp as (mask & E & _). eauto.
      * now apply box_not_aligned.
  - rewrite kf_mask_eq.
    destruct (first_violation fmin fmax kmin kmax) as [msg|] eqn:Hf.
    + exists msg. split; [reflexivity | now apply first_violation_names].
    + apply first_violation_valid in Hf. congruence.
Qed.

(* ================================================================== *)
(** ** The tropical-depression mask *)

Lemma td_plus_list_value (wavenumber frequency : DataArray float) (p : position) :
  forallb (fun a => values a p) (td_plus_list wavenumber frequency)
  = td_plus (values wavenumber p) (values frequency p).
Proof. unfold td_plus_list, td_plus. simpl. now rewrite andb_true_r. Qed.

Lemma td_minus_list_value (wavenumber frequency : DataArray float) (p : position) :
  forallb (fun a => values a p) (td_minus_list wavenumber frequency)
  = td_minus (values wavenumber p) (values frequency p).
Proof. unfold td_minus_list, td_minus. simpl. now rewrite andb_true_r. Qed.

Lemma aligned_box (w f : array) (kmin kmax : option float) :
  aligned w f = true -> box_aligned w f kmin kmax = true.
Proof. unfold box_aligned. now destruct kmin, kmax. Qed.

(** On aligned coordinates the boundaries lie on the grid of the two
    coordinates. *)
Lemma td_on_grid (w f : array) :
  aligned w f = true ->
  let wavenumber := fst (_wrap_to_xarray w f) in
  let frequency := snd (_wrap_to_xarray w f) in
  Forall (on_grid (grid_of frequency wavenumber) (A := bool))
         (td_plus_list wavenumber frequency)
  /\ Forall (on_grid (grid_of frequency wavenumber) (A := bool))
            (td_minus_list wavenumber frequency).
Proof.
  intros Ha wavenumber frequency.
  assert (HF : on_grid (grid_of frequency wavenumber) frequency)
    by apply XrFacts.on_grid_of_l.
  assert (HK : on_grid (grid_of frequency wavenumber) wavenumber)
    by (apply XrFacts.on_grid_of_r; exact Ha).
  assert (H1 : on_grid (grid_of frequency wavenumber)
                 (xr.map2 PrimFloat.add (xr.rmul 84 frequency) wavenumber))
    by (apply XrFacts.on_grid_map2; assumption).
  assert (H2 : on_grid (grid_of frequency wavenumber)
                 (xr.map2 PrimFloat.add (xr.rmul 210 frequency)
                                        (xr.rmul 2.5 wavenumber)))
    by (apply XrFacts.on_grid_map2; assumption).
  split; repeat (apply Forall_cons; [first [exact H1 | exact H2]|]); apply Forall_nil.
Qed.

(** The value of the tropical-depression mask at a bin, on aligned
    coordinates and with valid bounds. *)
Lemma td_mask_value
    (arithmetic_join : DataArray float -> DataArray float -> result (DataArray float))
    (w f : array) fmin fmax kmin kmax (p : position) :
  first_violation fmin fmax kmin kmax = None ->
  aligned w f = true ->
  mask_value (td_mask arithmetic_join w f fmin fmax kmin kmax) p
  = Some (plus_branch fmin fmax kmin kmax (wavenumber_at w f p) (frequency_at w f p)
            && td_plus (wavenumber_at w f p) (frequency_at w f p)
          || minus_branch fmin fmax kmin kmax (wavenumber_at w f p) (frequency_at w f p)
            && td_minus (wavenumber_at w f p) (frequency_at w f p)).
Proof.
  intros Hv Ha. rewrite td_mask_aligned, Hv by assumption. cbv zeta.
  destruct (@box_on_grid w f fmin fmax kmin kmax (aligned_box w f kmin kmax Ha))
    as [Bp Bm].
  destruct (td_on_grid w f Ha) as [Tp Tm].
  erewrite combine_value_on_grid;
    [| apply box_plus_nonempty | apply box_minus_nonempty
     | apply Forall_app; split; [exact Bp | exact Tp]
     | apply Forall_app; split; [exact Bm | exact Tm]].
  rewrite !forallb_app, box_plus_value, box_minus_value.
  now rewrite td_plus_list_value, td_minus_list_value.
Qed.

(** C5.  [td_mask] appends to the branch lists of the box exactly the
    empirical boundaries, [84 f + k - 22 < 0] and [210 f + 2.5 k - 13 > 0]
    on the plus branch, [84 f + k + 22 > 0] and [210 f + 2.5 k + 13 < 0]
    on the minus branch, and returns AND(plus) OR AND(minus); called
    without bounds it uses [kmin = -20], [kmax = -6] and no [fmin],
    [fmax].  On coordinates that need no alignment (raw coordinates
    never do) the sums are taken bin by bin and the mask is returned,
    with the value below; on others the sums are what xarray's join
    makes of them, and combining the predicates may fail. *)
Theorem td_mask_bin
    (arithmetic_join : DataArray float -> DataArray float -> result (DataArray float))
    (w f : array) (fmin fmax kmin kmax : option float) (p : position) :
  bounds_valid fmin fmax kmin kmax = true ->
  let wavenumber := fst (_wrap_to_xarray w f) in
  let frequency := snd (_wrap_to_xarray w f) in
  td_mask arithmetic_join w f fmin fmax kmin kmax
  = (line1 <- xr.add2 arithmetic_join (xr.rmul 84%float frequency) wavenumber ;;
     line1' <- xr.add2 arithmetic_join (xr.rmul 84%float frequency) wavenumber ;;
     line2 <- xr.add2 arithmetic_join (xr.rmul 210%float frequency)
                                      (xr.rmul 2.5%float wavenumber) ;;
     line2' <- xr.add2 arithmetic_join (xr.rmul 210%float frequency)
                                       (xr.rmul 2.5%float wavenumber) ;;
     _combine_plus_minus
       (box_plus wavenumber frequency fmin fmax kmin kmax ++ td_plus_of line1 line2)
       (box_minus wavenumber frequency fmin fmax kmin kmax ++ td_minus_of line1' line2'))
  /\ (aligned w f = true ->
      td_mask arithmetic_join w f fmin fmax kmin kmax
      = _combine_plus_minus
          (box_plus wavenumber frequency fmin fmax kmin kmax
             ++ td_plus_list wavenumber frequency)
          (box_minus wavenumber frequency fmin fmax kmin kmax
             ++ td_minus_list wavenumber frequency)
      /\ mask_value (td_mask arithmetic_join w f fmin fmax kmin kmax) p
         = Some (plus_branch fmin fmax kmin kmax (wavenumber_at w f p) (frequency_at w f p)
                   && td_plus (wavenumber_at w f p) (frequency_at w f p)
                 || minus_branch fmin fmax kmin kmax (wavenumber_at w f p)
                      (frequency_at w f p)
                   && td_minus (wavenumber_at w f p) (frequency_at w f p)))
  /\ td_mask_default arithmetic_join w f
     = td_mask arithmetic_join w f None None (Some (-20)%float) (Some (-6)%float).
Proof.
  intros Hv wavenumber frequency. apply first_violation_valid in Hv.
  split; [|split; [|reflexivity]].
  - rewrite td_mask_eq, Hv. reflexivity.
  - intros Ha. split.
    + rewrite td_mask_aligned, Hv by assumption. reflexivity.
    + now apply td_mask_value.
Qed.

(** The default call on wavenumbers -10, 10 and frequencies 0.25, -0.25:
    the bin (-10, 0.25) is selected, the bin (10, 0.25) is not. *)
Lemma td_mask_bin_witness :
  mask_value (td_mask_default Sample.arithmetic_join
                              (ndarray [(-10)%float; 10%float])
                              (ndarray [0.25%float; (-0.25)%float])) (bin 0 0)
  = Some true
  /\ mask_value (td_mask_default Sample.arithmetic_join
                                 (ndarray [(-10)%float; 10%float])
                                 (ndarray [0.25%float; (-0.25)%float])) (bin 1 0)
     = Some false.
Proof.
  split.
  - exact (proj2 (proj1 (proj2 (td_mask_bin Sample.arithmetic_join
                           (ndarray [(-10)%float; 10%float])
                           (ndarray [0.25%float; (-0.25)%float])
                           None None (Some (-20)%float) (Some (-6)%float)
                           (bin 0 0) eq_refl)) eq_refl)).
  - exact (proj2 (proj1 (proj2 (td_mask_bin Sample.arithmetic_join
                           (ndarray [(-10)%float; 10%float])
                           (ndarray [0.25%float; (-0.25)%float])
                           None None (Some (-20)%float) (Some (-6)%float)
                           (bin 1 0) eq_refl)) eq_refl)).
Defined.

(* ================================================================== *)
(** ** The wave mask *)

Section WaveClaims.

Variables g radius_earth beta : float.
Variable wave_func : string -> option dispersion.

Lemma wave_plus_value (func : dispersion) (wavenumber frequency : DataArray float)
    fmin fmax kmin kmax hmin hmax (n : Z) (p : position) :
  forallb (fun a => values a p)
    (wave_plus g radius_earth beta func wavenumber frequency
               fmin fmax kmin kmax hmin hmax n)
  = plus_branch fmin fmax kmin kmax (values wavenumber p) (values frequency p)
    && supplied hmin (fun hmin =>
         values (dispersion_at g radius_earth beta func operator_gt
                               wavenumber frequency hmin n) p)
    && supplied hmax (fun hmax =>
         values (dispersion_at g radius_earth beta func operator_lt
                               wavenumber frequency hmax n) p).
Proof.
  unfold wave_plus. rewrite !forallb_app, box_plus_value.
  destruct hmin, hmax; simpl; rewrite ?andb_true_r, ?andb_assoc; reflexivity.
Qed.

Lemma wave_minus_value (wave_type : string) (func : dispersion)
    (wavenumber frequency : DataArray float)
    fmin fmax kmin kmax hmin hmax (n : Z) (p : position) :
  forallb (fun a => values a p)
    (wave_minus g radius_earth beta wave_type func wavenumber frequency
                fmin fmax kmin kmax hmin hmax n)
  = minus_branch fmin fmax kmin kmax (values wavenumber p) (values frequency p)
    && supplied hmin (fun hmin =>
         values (dispersion_at g radius_earth beta func
                   (hmin_minus_comparator wave_type) wavenumber frequency hmin n) p)
    && supplied hmax (fun hmax =>
         values (dispersion_at g radius_earth beta func
                   (hmax_minus_comparator wave_type) wavenumber frequency hmax n) p).
Proof.
  unfold wave_minus. rewrite !forallb_app, box_minus_value.
  destruct hmin, hmax; simpl; rewrite ?andb_true_r, ?andb_assoc; reflexivity.
Qed.

(** The minus comparators over the recognized wave types. *)
Lemma minus_comparators (wave_type : string) :
  str_in wave_type wave_types = true ->
  (str_in wave_type ["ig"; "eig"; "mrg"]%string = true /\
   hmin_minus_comparator wave_type = operator_gt /\
   hmax_minus_comparator wave_type = operator_lt)
  \/
  (str_in wave_type ["er"; "kelvin"]%string = true /\
   hmin_minus_comparator wave_type = operator_lt /\
   hmax_minus_comparator wave_type = operator_gt).
Proof.
  unfold hmin_minus_comparator, hmax_minus_comparator, omega_squared,
    wave_types, str_in. simpl.
  destruct (String.eqb wave_type "kelvin"), (String.eqb wave_type "er"),
    (String.eqb wave_type "ig"), (String.eqb wave_type "eig"),
    (String.eqb wave_type "mrg"); simpl; intros H;
    try discriminate; auto.
Qed.

(** C2.  For every recognized wave type (with its relation [func] in
    the registry) and valid bounds, [wave_mask] returns
    AND(plus) OR AND(minus), where the plus list is the box followed by
    [func(gt, ...)] at the dispersion point of [hmin] and [func(lt, ...)]
    at that of [hmax], for the depths that are given, and the minus list
    uses at [hmin] greater-than for ig, eig, mrg and less-than for er,
    kelvin, and at [hmax] less-than for ig, eig, mrg and greater-than
    for er, kelvin.  Every mask it returns has the value of that
    combination at a bin, and a mask is returned when the coordinates
    and the fields of the relation lie on one grid. *)
Theorem wave_mask_branches (w f : array) (wave_type : string) (func : dispersion)
    (fmin fmax kmin kmax hmin hmax : option float) (n : Z) (p : position) :
  str_in wave_type wave_types = true ->
  wave_func wave_type = Some func ->
  bounds_valid fmin fmax kmin kmax = true ->
  let wavenumber := fst (_wrap_to_xarray w f) in
  let frequency := snd (_wrap_to_xarray w f) in
  let relation op h :=
    values (dispersion_at g radius_earth beta func op wavenumber frequency h n) p in
  wave_mask g radius_earth beta wave_func w f wave_type
            fmin fmax kmin kmax hmin hmax n
  = _combine_plus_minus
      (box_plus wavenumber frequency fmin fmax kmin kmax
         ++ when hmin (fun hmin =>
              dispersion_at g radius_earth beta func operator_gt
                            wavenumber frequency hmin n)
         ++ when hmax (fun hmax =>
              dispersion_at g radius_earth beta func operator_lt
                            wavenumber frequency hmax n))
      (box_minus wavenumber frequency fmin fmax kmin kmax
         ++ when hmin (fun hmin =>
              dispersion_at g radius_earth beta func
                (hmin_minus_comparator wave_type) wavenumber frequency hmin n)
         ++ when hmax (fun hmax =>
              dispersion_at g radius_earth beta func
                (hmax_minus_comparator wave_type) wavenumber frequency hmax n))
  /\ (forall mask,
        wave_mask g radius_earth beta wave_func w f wave_type
                  fmin fmax kmin kmax hmin hmax n = Return mask ->
        values mask p
        = (plus_branch fmin fmax kmin kmax (wavenumber_at w f p) (frequency_at w f p)
             && supplied hmin (relation operator_gt)
             && supplied hmax (relation operator_lt)
           || minus_branch fmin fmax kmin kmax (wavenumber_at w f p) (frequency_at w f p)
             && supplied hmin (relation (hmin_minus_comparator wave_type))
             && supplied hmax (relation (hmax_minus_comparator wave_type))))
  /\ (forall G : grid,
        on_grid G wavenumber -> on_grid G frequency ->
        (forall op h,
            on_grid G (dispersion_at g radius_earth beta func op
                                     wavenumber frequency h n)) ->
        exists mask,
          wave_mask g radius_earth beta wave_func w f wave_type
                    fmin fmax kmin kmax hmin hmax n = Return mask)
  /\ ((str_in wave_type ["ig"; "eig"; "mrg"]%string = true /\
       hmin_minus_comparator wave_type = operator_gt /\
       hmax_minus_comparator wave_type = operator_lt)
      \/
      (str_in wave_type ["er"; "kelvin"]%string = true /\
       hmin_minus_comparator wave_type = operator_lt /\
       hmax_minus_comparator wave_type = operator_gt)).
Proof.
  intros Hw Hfunc Hv wavenumber frequency relation.
  apply first_violation_valid in Hv.
  rewrite wave_mask_eq, Hv, Hw, Hfunc. cbv zeta.
  fold wavenumber frequency.
  split; [reflexivity | split; [|split; [|now apply minus_comparators]]].
  - intros mask H. rewrite (@combine_value p _ _ _ H).
    rewrite wave_plus_value, wave_minus_value. reflexivity.
  - intros G HK HF Hrel.
    destruct (@box_on G wavenumber frequency fmin fmax kmin kmax HF (fun _ => HK))
      as [Bp Bm].
    destruct (@combine_on_grid G
                (wave_plus g radius_earth beta func wavenumber frequency
                           fmin fmax kmin kmax hmin hmax n)
                (wave_minus g radius_earth beta wave_type func wavenumber frequency
                            fmin fmax kmin kmax hmin hmax n))
      as (mask & E & _).
    + apply box_plus_nonempty.
    + apply box_minus_nonempty.
    + unfold wave_plus. rewrite !Forall_app. split; [exact Bp|].
      split; [destruct hmin | destruct hmax]; cbn [when]; auto.
    + unfold wave_minus. rewrite !Forall_app. split; [exact Bm|].
      split; [destruct hmin | destruct hmax]; cbn [when]; auto.
    + eauto.
Qed.

End WaveClaims.

(** The Kelvin entry of the sample registry on the sample grid, with the
    box 0.125 < f < 0.5, k < 5 and the depths 8 and 2000: the bin
    (3, 0.25) is selected. *)
Lemma wave_mask_branches_witness :
  exists mask,
    wave_mask Sample.g Sample.radius_earth Sample.beta sample_wave_func
              Sample.wavenumber Sample.frequency "kelvin"
              (Some 0.125%float) (Some 0.5%float) None (Some 5%float)
              (Some 8%float) (Some 2000%float) 1
    = Return mask
    /\ values mask (bin 2 2) = true.
Proof.
  eexists. split; [reflexivity|].
  exact (proj1 (proj2
    (wave_mask_branches Sample.g Sample.radius_earth Sample.beta sample_wave_func
       Sample.wavenumber Sample.frequency "kelvin"
       (Some 0.125%float) (Some 0.5%float) None (Some 5%float)
       (Some 8%float) (Some 2000%float) 1 (bin 2 2)
       eq_refl eq_refl eq_refl)) _ eq_refl).
Defined.

(** C6, as the code has it.  For a wave type outside the recognized
    ones [wave_mask] never returns a mask: it raises the value error
    that names the wave type, unless a bound of the box is invalid, in
    which case the assertion error of [kf_mask], which runs first, is
    raised instead.  For a recognized wave type no value error is
    raised (the error of a refused alignment is xarray's own
    [AlignmentError]). *)
Theorem wave_mask_wave_type (g radius_earth beta : float)
    (wave_func : string -> option dispersion) (w f : array) (wave_type : string)
    (fmin fmax kmin kmax hmin hmax : option float) (n : Z) :
  if str_in wave_type wave_types
  then forall msg,
      wave_mask g radius_earth beta wave_func w f wave_type
                fmin fmax kmin kmax hmin hmax n <> Raise (ValueError msg)
  else wave_mask g radius_earth beta wave_func w f wave_type
                 fmin fmax kmin kmax hmin hmax n
       = match first_violation fmin fmax kmin kmax with
         | Some msg => Raise (AssertionError msg)
         | None => Raise (ValueError (msg_wave_type wave_type))
         end.
Proof.
  rewrite wave_mask_eq.
  destruct (str_in wave_type wave_types).
  - intros msg.
    destruct (first_violation fmin fmax kmin kmax); [discriminate|].
    destruct (wave_func wave_type) as [func|]; [|discriminate].
    cbv zeta. unfold wave_plus, wave_minus. intros E.
    apply combine_error in E;
      [discriminate E | apply box_plus_nonempty | apply box_minus_nonempty].
  - destruct (first_violation fmin fmax kmin kmax); reflexivity.
Qed.

(** The claim C6 as the specification states it fails when a bound is
    invalid too: with the unknown wave type bogus and [fmin = -1] the
    error is the one of [fmin], not the one naming the wave type. *)
Lemma wave_mask_wave_type_counterexample :
  str_in "bogus" wave_types = false
  /\ wave_mask Sample.g Sample.radius_earth Sample.beta sample_wave_func
               Sample.wavenumber Sample.frequency "bogus"
               (Some (-1)%float) (Some 0.5%float) None (Some 14%float)
               (Some 8%float) (Some 90%float) 1
     = Raise (AssertionError msg_fmin)
  /\ wave_mask Sample.g Sample.radius_earth Sample.beta sample_wave_func
               Sample.wavenumber Sample.frequency "bogus"
               (Some (-1)%float) (Some 0.5%float) None (Some 14%float)
               (Some 8%float) (Some 90%float) 1
     <> Raise (ValueError (msg_wave_type "bogus")).
Proof.
  split; [reflexivity | split; [reflexivity | discriminate]].
Qed.

(* ================================================================== *)
(** ** Bins of zero frequency *)

(** Where both branches of the box are closed no builder selects. *)
Lemma unselected_when_closed (g radius_earth beta : float)
    (wave_func : string -> option dispersion) (w f : array) (p : position) :
  (forall fmin fmax kmin kmax,
      plus_branch fmin fmax kmin kmax (wavenumber_at w f p) (frequency_at w f p)
      = false) ->
  (forall fmin fmax kmin kmax,
      minus_branch fmin fmax kmin kmax (wavenumber_at w f p) (frequency_at w f p)
      = false) ->
  (forall fmin fmax kmin kmax mask,
      kf_mask w f fmin fmax kmin kmax false = Return (Combined mask) ->
      values mask p = false)
  /\ (forall wave_type fmin fmax kmin kmax hmin hmax n mask,
      wave_mask g radius_earth beta wave_func w f wave_type
                fmin fmax kmin kmax hmin hmax n = Return mask ->
      values mask p = false)
  /\ (forall arithmetic_join fmin fmax kmin kmax mask,
      td_mask arithmetic_join w f fmin fmax kmin kmax = Return mask ->
      values mask p = false).
Proof.
  intros Hplus Hminus.
  split; [|split].
  - intros fmin fmax kmin kmax mask H.
    rewrite kf_mask_eq in H.
    destruct (first_violation fmin fmax kmin kmax) eqn:Hv; [discriminate|].
    cbv zeta in H.
    destruct (_combine_plus_minus _ _) as [m|] eqn:E; [|discriminate].
    injection H as ->.
    rewrite <- (app_nil_r (box_plus _ _ _ _ _ _)) in E.
    rewrite <- (app_nil_r (box_minus _ _ _ _ _ _)) in E.
    rewrite (@over_box_value _ _ _ _ _ _ _ _ _ p E).
    now rewrite Hplus, Hminus.
  - intros wave_type fmin fmax kmin kmax hmin hmax n mask H.
    apply wave_mask_returns in H as (_ & lp & lm & E).
    rewrite (@over_box_value _ _ _ _ _ _ _ _ _ p E).
    now rewrite Hplus, Hminus.
  - intros arithmetic_join fmin fmax kmin kmax mask H.
    apply td_mask_returns in H as (_ & lp & lm & E).
    rewrite (@over_box_value _ _ _ _ _ _ _ _ _ p E).
    now rewrite Hplus, Hminus.
Qed.

(** C10.  Every mask returned by [kf_mask], [wave_mask] or [td_mask] is
    false at every bin whose frequency equals 0, whatever the bounds,
    the wave type and the depths: the branch lists start with
    [frequency > 0] and [frequency < 0]. *)
Theorem zero_frequency_unselected (g radius_earth beta : float)
    (wave_func : string -> option dispersion) (w f : array) (p : position) :
  PrimFloat.eqb (frequency_at w f p) 0 = true ->
  (forall fmin fmax kmin kmax mask,
      kf_mask w f fmin fmax kmin kmax false = Return (Combined mask) ->
      values mask p = false)
  /\ (forall wave_type fmin fmax kmin kmax hmin hmax n mask,
      wave_mask g radius_earth beta wave_func w f wave_type
                fmin fmax kmin kmax hmin hmax n = Return mask ->
      values mask p = false)
  /\ (forall arithmetic_join fmin fmax kmin kmax mask,
      td_mask arithmetic_join w f fmin fmax kmin kmax = Return mask ->
      values mask p = false).
Proof.
  intros Hz. apply unselected_when_closed; intros.
  - now apply plus_branch_zero.
  - now apply minus_branch_zero.
Qed.

(** On the sample grid the three builders return a mask, and it is
    false at the bin (3, 0), of frequency zero. *)
Lemma zero_frequency_unselected_witness :
  (exists mask,
      kf_mask Sample.wavenumber Sample.frequency
              None (Some 0.5%float) (Some 1%float) None false
      = Return (Combined mask)
      /\ values mask (bin 2 1) = false)
  /\ (exists mask,
      wave_mask Sample.g Sample.radius_earth Sample.beta sample_wave_func
                Sample.wavenumber Sample.frequency "ig"
                None (Some 0.5%float) None None (Some 8%float) (Some 90%float) 1
      = Return mask
      /\ values mask (bin 2 1) = false)
  /\ (exists mask,
      td_mask Sample.arithmetic_join Sample.wavenumber Sample.frequency
              None None (Some (-20)%float) (Some (-6)%float)
      = Return mask
      /\ values mask (bin 2 1) = false).
Proof.
  destruct (@zero_frequency_unselected Sample.g Sample.radius_earth Sample.beta
              sample_wave_func Sample.wavenumber Sample.frequency (bin 2 1)
              eq_refl) as (Hkf & Hwave & Htd).
  split; [|split].
  - eexists. split; [reflexivity|].
    apply (Hkf None (Some 0.5%float) (Some 1%float) None). reflexivity.
  - eexists. split; [reflexivity|].
    apply (Hwave "ig"%string None (Some 0.5%float) None None
                 (Some 8%float) (Some 90%float) 1%Z).
    reflexivity.
  - eexists. split; [reflexivity|].
    apply (Htd Sample.arithmetic_join None None (Some (-20)%float) (Some (-6)%float)).
    reflexivity.
Defined.

(* ================================================================== *)
(** ** The coordinate normalizer and the non-dimensionalizer *)

(** C8.  [_wrap_to_xarray] promotes a raw array to a labeled coordinate
    whose index is the array itself, returns a labeled array unchanged,
    and normalizing its result again changes nothing. *)
Theorem wrap_to_xarray_idempotent (w f : array) :
  let out := _wrap_to_xarray w f in
  match w with
  | ndarray v =>
      dims (fst out) = ["wavenumber"%string]
      /\ coords (fst out) = [("wavenumber"%string, v)]
      /\ shape (fst out) = [List.length v]
      /\ forall p, values (fst out) p = nth (p "wavenumber"%string) v PrimFloat.nan
  | xarray d => fst out = d
  end
  /\ match f with
     | ndarray v =>
         dims (snd out) = ["frequency"%string]
         /\ coords (snd out) = [("frequency"%string, v)]
         /\ shape (snd out) = [List.length v]
         /\ forall p, values (snd out) p = nth (p "frequency"%string) v PrimFloat.nan
     | xarray d => snd out = d
     end
  /\ _wrap_to_xarray (xarray (fst out)) (xarray (snd out)) = out.
Proof.
  destruct w as [kv|kd], f as [fv|fd]; cbv zeta; simpl; repeat split.
Qed.

Lemma seconds_per_day : PyFloat.of_int (24 * 3600) = 86400%float.
Proof. reflexivity. Qed.

(** C7.  For every wavenumber and frequency input and every depth [h]
    (the positive ones in particular), [_nondim_k_omega] returns the
    pair whose first component is, element by element,
    [wavenumber / radius_earth * sqrt(c / beta)] and whose second is
    [frequency * 2 * pi / 86400 / sqrt(beta * c)], with
    [c = sqrt(g * h)]. *)
Theorem nondim_k_omega_formulas (g radius_earth beta : float) (w f : array) (h : float) :
  elementwise (k_nondim_of g radius_earth beta h) w
              (fst (_nondim_k_omega g radius_earth beta w f h))
  /\ elementwise (omega_nondim_of g beta h) f
                 (snd (_nondim_k_omega g radius_earth beta w f h)).
Proof.
  unfold _nondim_k_omega, array_mul, array_div, k_nondim_of, omega_nondim_of,
    phase_speed.
  rewrite seconds_per_day. cbv zeta.
  split.
  - destruct w as [kv|kd]; simpl.
    + now rewrite map_map.
    + repeat split.
  - destruct f as [fv|fd]; simpl.
    + now rewrite !map_map.
    + repeat split.
Qed.

(** C9, as the code has it.  The outputs of [_nondim_k_omega] have the
    shapes of the inputs, and each is labeled exactly when its input is:
    a raw input gives a raw output, a labeled input a labeled output. *)
Theorem nondim_k_omega_shape (g radius_earth beta : float) (w f : array) (h : float) :
  let out := _nondim_k_omega g radius_earth beta w f h in
  array_shape (fst out) = array_shape w
  /\ array_shape (snd out) = array_shape f
  /\ is_labeled (fst out) = is_labeled w
  /\ is_labeled (snd out) = is_labeled f.
Proof.
  cbv zeta. unfold _nondim_k_omega, array_mul, array_div. cbv zeta.
  destruct w as [kv|kd], f as [fv|fd]; simpl;
    rewrite ?length_map; repeat split.
Qed.

(** The claim C9 as the specification states it fails on labeled
    inputs, which is what [wave_mask] passes: both outputs are labeled. *)
Lemma nondim_k_omega_shape_counterexample :
  is_labeled
    (fst (_nondim_k_omega Sample.g Sample.radius_earth Sample.beta
            (xarray (xr.coordinate "wavenumber" [1%float; 2%float]))
            (xarray (xr.coordinate "frequency" [0.25%float]))
            8%float)) = true
  /\ is_labeled
       (snd (_nondim_k_omega Sample.g Sample.radius_earth Sample.beta
               (xarray (xr.coordinate "wavenumber" [1%float; 2%float]))
               (xarray (xr.coordinate "frequency" [0.25%float]))
               8%float)) = true.
Proof. split; reflexivity. Qed.

(* ================================================================== *)
(** ** Further properties of the mask builders *)

(** [_combine_plus_minus] needs a predicate on each side: with an empty
    list [reduce] has nothing to start from and raises a type error
    (for the minus list, once the plus list is reduced, which may fail
    first).  With a predicate on each side, a mask that is returned is,
    at every position, the conjunction of the plus predicates or the
    conjunction of the minus predicates; the only failure is a refused
    alignment; and predicates on one grid are combined. *)
Theorem combine_plus_minus_outcome (logical_plus logical_minus : list (DataArray bool)) :
  match logical_plus, logical_minus with
  | [], _ =>
      exists msg, _combine_plus_minus logical_plus logical_minus = Raise (TypeError msg)
  | _ :: _, [] =>
      (exists msg, _combine_plus_minus logical_plus logical_minus = Raise (TypeError msg))
      \/ _combine_plus_minus logical_plus logical_minus = Raise AlignmentError
  | _ :: _, _ :: _ =>
      (forall mask,
          _combine_plus_minus logical_plus logical_minus = Return mask ->
          forall p, values mask p
                    = forallb (fun a => values a p) logical_plus
                      || forallb (fun a => values a p) logical_minus)
      /\ (forall e,
            _combine_plus_minus logical_plus logical_minus = Raise e ->
            e = AlignmentError)
      /\ (forall G : grid,
            Forall (on_grid G (A := bool)) logical_plus ->
            Forall (on_grid G (A := bool)) logical_minus ->
            exists mask,
              _combine_plus_minus logical_plus logical_minus = Return mask
              /\ on_grid G mask)
  end.
Proof.
  destruct logical_plus as [|x xs], logical_minus as [|y ys];
    try (eexists; reflexivity).
  - unfold _combine_plus_minus. simpl.
    destruct (reduce_from xr.logical_and xs x) eqn:E; simpl.
    + left. eexists; reflexivity.
    + right. f_equal. eapply reduce_from_error; eauto.
  - split; [|split].
    + intros mask H p. now apply combine_value.
    + intros e H. eapply combine_error; eauto; discriminate.
    + intros G Hp Hm. apply combine_on_grid; auto; discriminate.
Qed.

(** With valid bounds, [return_individual=True] gives two lists of the
    same length, one predicate for the sign of the frequency and one per
    supplied bound, and combining them gives what [kf_mask] returns
    without the flag. *)
Theorem kf_mask_individual_combines (w f : array) (fmin fmax kmin kmax : option float) :
  bounds_valid fmin fmax kmin kmax = true ->
  exists logical_plus logical_minus,
    kf_mask w f fmin fmax kmin kmax true
    = Return (Individual logical_plus logical_minus)
    /\ List.length logical_plus = S (supplied_count fmin fmax kmin kmax)
    /\ List.length logical_minus = S (supplied_count fmin fmax kmin kmax)
    /\ bind (_combine_plus_minus logical_plus logical_minus)
            (fun mask => Return (Combined mask))
       = kf_mask w f fmin fmax kmin kmax false.
Proof.
  intros Hv. apply first_violation_valid in Hv.
  rewrite !kf_mask_eq, Hv. cbv zeta.
  do 2 eexists. split; [reflexivity|].
  unfold box_plus, box_minus, supplied_count.
  destruct fmin, fmax, kmin, kmax; repeat split.
Qed.

Lemma kf_mask_individual_combines_witness :
  exists logical_plus logical_minus,
    kf_mask Sample.wavenumber Sample.frequency
            (Some 0.125%float) None (Some 1%float) (Some 5%float) true
    = Return (Individual logical_plus logical_minus)
    /\ List.length logical_plus = 4
    /\ List.length logical_minus = 4
    /\ bind (_combine_plus_minus logical_plus logical_minus)
            (fun mask => Return (Combined mask))
       = kf_mask Sample.wavenumber Sample.frequency
                 (Some 0.125%float) None (Some 1%float) (Some 5%float) false.
Proof.
  exact (kf_mask_individual_combines Sample.wavenumber Sample.frequency
           (Some 0.125%float) None (Some 1%float) (Some 5%float) eq_refl).
Defined.


Lemma branches_disjoint fmin fmax kmin kmax (k f : float) :
  plus_branch fmin fmax kmin kmax k f && minus_branch fmin fmax kmin kmax k f = false.
Proof.
  unfold plus_branch, minus_branch, PyFloat.gt, PyFloat.lt.
  destruct (PrimFloat.ltb 0 f) eqn:H; [|reflexivity].
  apply FloatOrder.ltb_asym in H. rewrite H. simpl.
  now rewrite andb_false_r.
Qed.

(** The two branch lists that [kf_mask] returns never hold at the same
    bin: the first asks for a positive frequency, the second for a
    negative one. *)
Theorem kf_mask_branches_disjoint (w f : array) (fmin fmax kmin kmax : option float)
    (logical_plus logical_minus : list (DataArray bool)) (p : position) :
  kf_mask w f fmin fmax kmin kmax true = Return (Individual logical_plus logical_minus) ->
  forallb (fun a => values a p) logical_plus
  && forallb (fun a => values a p) logical_minus = false.
Proof.
  rewrite kf_mask_eq.
  destruct (first_violation fmin fmax kmin kmax); [discriminate|].
  cbv zeta. intros [= <- <-].
  rewrite box_plus_value, box_minus_value. apply branches_disjoint.
Qed.

Lemma kf_mask_branches_disjoint_witness :
  exists logical_plus logical_minus,
    kf_mask Sample.wavenumber Sample.frequency
            (Some 0.125%float) None (Some 1%float) (Some 5%float) true
    = Return (Individual logical_plus logical_minus)
    /\ forallb (fun a => values a (bin 2 2)) logical_plus
       && forallb (fun a => values a (bin 2 2)) logical_minus = false.
Proof.
  do 2 eexists. split; [reflexivity|].
  apply (@kf_mask_branches_disjoint Sample.wavenumber Sample.frequency
           (Some 0.125%float) None (Some 1%float) (Some 5%float)).
  reflexivity.
Defined.

Lemma supplied_loosened {A : Type} (P : float -> bool) (bound bound' : option float) :
  loosened bound bound' -> supplied bound P = true -> supplied bound' P = true.
Proof. intros [-> | ->]; auto. Qed.

Lemma ordered_loosened (lo hi lo' hi' : option float) :
  loosened lo lo' -> loosened hi hi' -> ordered lo hi = true -> ordered lo' hi' = true.
Proof.
  intros [-> | ->] [-> | ->]; unfold ordered, supplied; auto;
    destruct lo; auto.
Qed.

Lemma first_violation_loosened fmin fmax kmin kmax fmin' fmax' kmin' kmax' :
  loosened fmin fmin' -> loosened fmax fmax' ->
  loosened kmin kmin' -> loosened kmax kmax' ->
  first_violation fmin fmax kmin kmax = None ->
  first_violation fmin' fmax' kmin' kmax' = None.
Proof.
  intros H1 H2 H3 H4 Hv. apply first_violation_valid in Hv.
  apply first_violation_valid. unfold bounds_valid in *.
  apply andb_true_iff in Hv as [Hv Hk]. apply andb_true_iff in Hv as [Hv Hf].
  apply andb_true_iff in Hv as [Hmin Hmax].
  unfold positive in *.
  rewrite (supplied_loosened (A := float) _ H1 Hmin),
          (supplied_loosened (A := float) _ H2 Hmax),
          (ordered_loosened H1 H2 Hf), (ordered_loosened H3 H4 Hk).
  reflexivity.
Qed.

Lemma plus_branch_loosened fmin fmax kmin kmax fmin' fmax' kmin' kmax' (k f : float) :
  loosened fmin fmin' -> loosened fmax fmax' ->
  loosened kmin kmin' -> loosened kmax kmax' ->
  plus_branch fmin fmax kmin kmax k f = true ->
  plus_branch fmin' fmax' kmin' kmax' k f = true.
Proof.
  intros H1 H2 H3 H4. unfold plus_branch. rewrite !andb_true_iff.
  intros [[[[H0 Ha] Hb] Hc] Hd].
  repeat split; auto; eapply (supplied_loosened (A := float)); eauto.
Qed.

Lemma minus_branch_loosened fmin fmax kmin kmax fmin' fmax' kmin' kmax' (k f : float) :
  loosened fmin fmin' -> loosened fmax fmax' ->
  loosened kmin kmin' -> loosened kmax kmax' ->
  minus_branch fmin fmax kmin kmax k f = true ->
  minus_branch fmin' fmax' kmin' kmax' k f = true.
Proof.
  intros H1 H2 H3 H4. unfold minus_branch. rewrite !andb_true_iff.
  intros [[[[H0 Ha] Hb] Hc] Hd].
  repeat split; auto; eapply (supplied_loosened (A := float)); eauto.
Qed.

Lemma box_aligned_loosened (w f : array) (kmin kmax kmin' kmax' : option float) :
  loosened kmin kmin' -> loosened kmax kmax' ->
  box_aligned w f kmin kmax = true -> box_aligned w f kmin' kmax' = true.
Proof.
  unfold box_aligned.
  intros [-> | ->] [-> | ->]; destruct kmin, kmax; auto.
Qed.

(** Dropping bounds only adds bins: a bin selected by [kf_mask] is
    selected again when any of the four bounds is left out (and the
    looser call does not fail). *)
Theorem kf_mask_loosened (w f : array)
    (fmin fmax kmin kmax fmin' fmax' kmin' kmax' : option float) (p : position) :
  loosened fmin fmin' -> loosened fmax fmax' ->
  loosened kmin kmin' -> loosened kmax kmax' ->
  combined_value (kf_mask w f fmin fmax kmin kmax false) p = Some true ->
  combined_value (kf_mask w f fmin' fmax' kmin' kmax' false) p = Some true.
Proof.
  intros H1 H2 H3 H4 Hsel.
  destruct (first_violation fmin fmax kmin kmax) as [msg|] eqn:Hv.
  - rewrite kf_mask_eq, Hv in Hsel. discriminate.
  - rewrite box_value in Hsel by assumption.
    rewrite box_value by (eapply first_violation_loosened; eauto).
    destruct (box_aligned w f kmin kmax) eqn:Ha; [|discriminate].
    rewrite (box_aligned_loosened w f H3 H4 Ha).
    injection Hsel as Hsel. f_equal.
    apply orb_true_iff in Hsel as [Hsel | Hsel].
    + now rewrite (@plus_branch_loosened fmin fmax kmin kmax fmin' fmax' kmin' kmax'
                    _ _ H1 H2 H3 H4 Hsel).
    + rewrite (@minus_branch_loosened fmin fmax kmin kmax fmin' fmax' kmin' kmax'
                _ _ H1 H2 H3 H4 Hsel).
      apply orb_true_r.
Qed.

Lemma kf_mask_loosened_witness :
  combined_value
    (kf_mask Sample.wavenumber Sample.frequency
             (Some 0.125%float) None None (Some 5%float) false) (bin 2 2)
  = Some true.
Proof.
  apply (@kf_mask_loosened Sample.wavenumber Sample.frequency
           (Some 0.125%float) (Some 0.5%float) (Some 1%float) (Some 5%float)
           (Some 0.125%float) None None (Some 5%float) (bin 2 2)).
  - right; reflexivity.
  - left; reflexivity.
  - left; reflexivity.
  - right; reflexivity.
  - reflexivity.
Defined.

(** The tropical-depression mask only removes bins from the box: a bin
    that [td_mask] selects is selected by [kf_mask] with the same
    bounds. *)
Theorem td_mask_within_box
    (arithmetic_join : DataArray float -> DataArray float -> result (DataArray float))
    (w f : array) (fmin fmax kmin kmax : option float)
    (p : position) :
  mask_value (td_mask arithmetic_join w f fmin fmax kmin kmax) p = Some true ->
  combined_value (kf_mask w f fmin fmax kmin kmax false) p = Some true.
Proof.
  destruct (td_mask arithmetic_join w f fmin fmax kmin kmax) as [mask|] eqn:E;
    simpl; [|discriminate].
  intros [= H].
  apply td_mask_returns in E as (Hv & lp & lm & E).
  rewrite (@over_box_within _ _ _ _ _ _ _ _ _ p Hv E).
  rewrite (@over_box_value _ _ _ _ _ _ _ _ _ p E) in H.
  destruct (plus_branch fmin fmax kmin kmax _ _),
           (minus_branch fmin fmax kmin kmax _ _);
    simpl in *; first [reflexivity | discriminate].
Qed.

Lemma td_mask_within_box_witness :
  combined_value
    (kf_mask (ndarray [(-10)%float; 10%float]) (ndarray [0.25%float; (-0.25)%float])
             None None (Some (-20)%float) (Some (-6)%float) false) (bin 0 0)
  = Some true.
Proof.
  apply (@td_mask_within_box Sample.arithmetic_join
           (ndarray [(-10)%float; 10%float])
           (ndarray [0.25%float; (-0.25)%float])
           None None (Some (-20)%float) (Some (-6)%float) (bin 0 0)).
  reflexivity.
Defined.

Section WaveExtras.

Variables g radius_earth beta : float.
Variable wave_func : string -> option dispersion.

(** The wave mask only removes bins from the box, whatever the registry
    holds. *)
Theorem wave_mask_within_box (w f : array) (wave_type : string)
    (fmin fmax kmin kmax hmin hmax : option float) (n : Z) (p : position) :
  mask_value (wave_mask g radius_earth beta wave_func w f wave_type
                        fmin fmax kmin kmax hmin hmax n) p = Some true ->
  combined_value (kf_mask w f fmin fmax kmin kmax false) p = Some true.
Proof.
  destruct (wave_mask g radius_earth beta wave_func w f wave_type
                      fmin fmax kmin kmax hmin hmax n) as [mask|] eqn:E;
    simpl; [|discriminate].
  intros [= H].
  apply wave_mask_returns in E as (Hv & lp & lm & E).
  rewrite (@over_box_within _ _ _ _ _ _ _ _ _ p Hv E).
  rewrite (@over_box_value _ _ _ _ _ _ _ _ _ p E) in H.
  destruct (plus_branch fmin fmax kmin kmax _ _),
           (minus_branch fmin fmax kmin kmax _ _);
    simpl in *; first [reflexivity | discriminate].
Qed.

Lemma omega_squared_recognized (wave_type : string) :
  omega_squared wave_type = true -> str_in wave_type wave_types = true.
Proof.
  unfold omega_squared, wave_types, str_in. simpl.
  destruct (String.eqb wave_type "kelvin"), (String.eqb wave_type "er"),
    (String.eqb wave_type "ig"), (String.eqb wave_type "eig"),
    (String.eqb wave_type "mrg"); simpl; congruence.
Qed.

(** For ig, eig and mrg both branches carry the same dispersion
    predicates, so a wave mask that is returned is the box mask and
    these predicates: the value of [kf_mask] at the bin, and
    [func(gt, ...)] at [hmin], and [func(lt, ...)] at [hmax]. *)
Theorem wave_mask_omega_squared (w f : array) (wave_type : string) (func : dispersion)
    (fmin fmax kmin kmax hmin hmax : option float) (n : Z) (p : position)
    (mask : DataArray bool) :
  str_in wave_type ["ig"; "eig"; "mrg"]%string = true ->
  wave_func wave_type = Some func ->
  wave_mask g radius_earth beta wave_func w f wave_type
            fmin fmax kmin kmax hmin hmax n = Return mask ->
  let wavenumber := fst (_wrap_to_xarray w f) in
  let frequency := snd (_wrap_to_xarray w f) in
  exists box : bool,
    combined_value (kf_mask w f fmin fmax kmin kmax false) p = Some box
    /\ values mask p
       = box
         && supplied hmin (fun hmin =>
              values (dispersion_at g radius_earth beta func operator_gt
                                    wavenumber frequency hmin n) p)
         && supplied hmax (fun hmax =>
              values (dispersion_at g radius_earth beta func operator_lt
                                    wavenumber frequency hmax n) p).
Proof.
  intros Hsq Hfunc H wavenumber frequency.
  assert (H' := H). apply wave_mask_returns in H' as (Hv & lp & lm & E).
  eexists. split; [exact (@over_box_within _ _ _ _ _ _ _ _ _ p Hv E)|].
  rewrite wave_mask_eq, Hv, (omega_squared_recognized _ Hsq), Hfunc in H.
  cbv zeta in H. rewrite (@combine_value p _ _ _ H).
  rewrite wave_plus_value, wave_minus_value.
  unfold hmin_minus_comparator, hmax_minus_comparator, omega_squared.
  rewrite Hsq. fold wavenumber frequency. unfold wavenumber_at, frequency_at.
  fold wavenumber frequency.
  destruct (plus_branch _ _ _ _ _ _), (minus_branch _ _ _ _ _ _);
    simpl; rewrite ?orb_diag, ?orb_false_r; reflexivity.
Qed.

(** Without depth bounds the wave mask of a recognized wave type is the
    box mask, and fails when the box fails. *)
Theorem wave_mask_without_depths (w f : array) (wave_type : string) (func : dispersion)
    (fmin fmax kmin kmax : option float) (n : Z) (p : position) :
  str_in wave_type wave_types = true ->
  wave_func wave_type = Some func ->
  mask_value (wave_mask g radius_earth beta wave_func w f wave_type
                        fmin fmax kmin kmax None None n) p
  = combined_value (kf_mask w f fmin fmax kmin kmax false) p.
Proof.
  intros Hw Hfunc. rewrite wave_mask_eq, kf_mask_eq, Hw, Hfunc.
  destruct (first_violation fmin fmax kmin kmax); [reflexivity|].
  cbv zeta. rewrite combined_value_bind.
  unfold wave_plus, wave_minus. cbn [when]. now rewrite !app_nil_r.
Qed.

End WaveExtras.

Lemma wave_mask_within_box_witness :
  combined_value
    (kf_mask Sample.wavenumber Sample.frequency
             (Some 0.125%float) (Some 0.5%float) None (Some 5%float) false) (bin 2 2)
  = Some true.
Proof.
  apply (@wave_mask_within_box Sample.g Sample.radius_earth Sample.beta
           sample_wave_func Sample.wavenumber Sample.frequency "kelvin"
           (Some 0.125%float) (Some 0.5%float) None (Some 5%float)
           (Some 8%float) (Some 2000%float) 1 (bin 2 2)).
  reflexivity.
Defined.

Lemma wave_mask_omega_squared_witness :
  exists (mask : DataArray bool) (box : bool),
    wave_mask Sample.g Sample.radius_earth Sample.beta sample_wave_func
              Sample.wavenumber Sample.frequency "ig"
              (Some 0.125%float) (Some 0.5%float) None (Some 5%float)
              (Some 8%float) None 1
    = Return mask
    /\ combined_value
         (kf_mask Sample.wavenumber Sample.frequency
                  (Some 0.125%float) (Some 0.5%float) None (Some 5%float) false)
         (bin 2 2) = Some box
    /\ values mask (bin 2 2) = box && true && true.
Proof.
  eexists.
  destruct (@wave_mask_omega_squared Sample.g Sample.radius_earth Sample.beta
              sample_wave_func Sample.wavenumber Sample.frequency "ig"
              sample_relation
              (Some 0.125%float) (Some 0.5%float) None (Some 5%float)
              (Some 8%float) None 1 (bin 2 2) _ eq_refl eq_refl eq_refl)
    as (box & Hbox & Hval).
  exists box. split; [reflexivity|]. split; [exact Hbox | exact Hval].
Defined.

Lemma wave_mask_without_depths_witness :
  mask_value
    (wave_mask Sample.g Sample.radius_earth Sample.beta sample_wave_func
               Sample.wavenumber Sample.frequency "er"
               (Some 0.125%float) (Some 0.5%float) None (Some 5%float)
               None None 1)
    (bin 2 2)
  = Some true.
Proof.
  exact (wave_mask_without_depths Sample.g Sample.radius_earth Sample.beta
           sample_wave_func Sample.wavenumber Sample.frequency "er"
           (Some 0.125%float) (Some 0.5%float) None (Some 5%float) 1 (bin 2 2)
           eq_refl eq_refl).
Defined.

(* ================================================================== *)
(** ** Binary64 arithmetic under a change of sign *)

Module FloatArith.

Lemma SFopp_involutive x : SFopp (SFopp x) = x.
Proof. destruct x; simpl; try reflexivity; now rewrite negb_involutive. Qed.

Lemma negated_opp x : negated x (SFopp x).
Proof. now left. Qed.

Lemma negated_opp_l x : negated (SFopp x) x.
Proof. left. now rewrite SFopp_involutive. Qed.

Lemma binary_round_aux_opp s m e l :
  binary_round_aux prec emax (negb s) m e l
  = SFopp (binary_round_aux prec emax s m e l).
Proof.
  unfold binary_round_aux.
  destruct (shr_fexp prec emax m e l) as [mrs' e'].
  destruct (shr_fexp prec emax _ e' loc_Exact) as [mrs'' e''].
  destruct (shr_m mrs''); try reflexivity.
  destruct (Z.leb e'' (emax - prec)); reflexivity.
Qed.

Lemma binary_round_opp s m e :
  binary_round prec emax (negb s) m e = SFopp (binary_round prec emax s m e).
Proof.
  unfold binary_round.
  destruct (shl_align m e _) as [mz ez]. apply binary_round_aux_opp.
Qed.

Lemma binary_normalize_opp m e :
  m <> 0%Z ->
  binary_normalize prec emax (- m) e false
  = SFopp (binary_normalize prec emax m e false).
Proof.
  destruct m as [|p|p]; [congruence| |]; intros _; simpl.
  - apply (binary_round_opp false).
  - change true with (negb false).
    now rewrite binary_round_opp, SFopp_involutive.
Qed.

Lemma cond_Zopp_negb s m : cond_Zopp (negb s) m = (- cond_Zopp s m)%Z.
Proof. destruct s; simpl; lia. Qed.

Lemma SFmul_opp_r x y :
  SFmul prec emax x (SFopp y) = SFopp (SFmul prec emax x y).
Proof.
  destruct x as [sx|sx| |sx mx ex], y as [sy|sy| |sy my ey]; simpl;
    try reflexivity;
    try (now destruct sx, sy).
  replace (xorb sx (negb sy)) with (negb (xorb sx sy)) by now destruct sx, sy.
  apply binary_round_aux_opp.
Qed.

Lemma SFmul_negated c x x' :
  negated x x' -> negated (SFmul prec emax c x) (SFmul prec emax c x').
Proof.
  intros [-> | (s & s' & -> & ->)].
  - left. apply SFmul_opp_r.
  - destruct c as [sc|sc| |sc mc ec]; simpl.
    + right. eauto.
    + now left.
    + now left.
    + right. eauto.
Qed.

Lemma SFadd_opp x y :
  negated (SFadd prec emax x y) (SFadd prec emax (SFopp x) (SFopp y)).
Proof.
  destruct x as [sx|sx| |sx mx ex], y as [sy|sy| |sy my ey];
    try (left; reflexivity);
    try solve [destruct sx, sy; simpl; ((left; reflexivity) || (right; eauto))].
  unfold SFadd, SFopp. cbv zeta.
  rewrite !cond_Zopp_negb, <- Z.opp_add_distr.
  set (S := (cond_Zopp sx _ + cond_Zopp sy _)%Z).
  destruct (Z.eq_dec S 0) as [-> | Hne].
  - right. simpl. eauto.
  - left. now apply binary_normalize_opp.
Qed.

Lemma SFadd_zero_l s s' y :
  negated (SFadd prec emax (S754_zero s) y) (SFadd prec emax (S754_zero s') (SFopp y)).
Proof.
  destruct y as [sy|sy| |sy my ey]; simpl.
  - right. destruct s, sy, s'; simpl; eauto.
  - now left.
  - now left.
  - now left.
Qed.

Lemma SFadd_zero_r s s' x :
  negated (SFadd prec emax x (S754_zero s)) (SFadd prec emax (SFopp x) (S754_zero s')).
Proof.
  destruct x as [sx|sx| |sx mx ex]; simpl.
  - right. destruct s, sx, s'; simpl; eauto.
  - now left.
  - now left.
  - now left.
Qed.

Lemma SFadd_negated x x' y y' :
  negated x x' -> negated y y' ->
  negated (SFadd prec emax x y) (SFadd prec emax x' y').
Proof.
  intros [-> | (s & s' & -> & ->)] [-> | (t & t' & -> & ->)].
  - apply SFadd_opp.
  - apply SFadd_zero_r.
  - apply SFadd_zero_l.
  - right. destruct s, t, s', t'; simpl; eauto.
Qed.

Lemma SFsub_add x y :
  SFsub prec emax x y = SFadd prec emax x (SFopp y).
Proof.
  destruct x as [sx|sx| |sx mx ex], y as [sy|sy| |sy my ey];
    try reflexivity;
    now destruct sx, sy.
Qed.

Lemma negated_ltb_zero x x' :
  negated x x' ->
  SFltb x' (S754_zero false) = SFltb (S754_zero false) x
  /\ SFltb (S754_zero false) x' = SFltb x (S754_zero false).
Proof.
  intros [-> | (s & s' & -> & ->)].
  - destruct x as [s|s| |s m e]; simpl; try (now split); destruct s; now split.
  - now split.
Qed.

Lemma SFeqb_negated x y :
  SFeqb y (SFopp x) = true -> negated x y.
Proof.
  unfold SFeqb.
  destruct x as [sx|sx| |sx mx ex], y as [sy|sy| |sy my ey]; simpl;
    try discriminate;
    try (destruct sx; discriminate); try (destruct sy; discriminate).
  - intros _. right. eauto.
  - destruct sx, sy; try discriminate; intros _; now left.
  - destruct sx, sy; simpl; try discriminate;
      destruct (ey ?= ex)%Z eqn:He; try discriminate;
      destruct (Pos.compare_cont Eq my mx) eqn:Hm; try discriminate;
      apply Z.compare_eq in He; apply Pos.compare_eq in Hm; subst;
      intros _; now left.
Qed.

Lemma negated_add_sub x x' c :
  negated x x' -> negated (SFadd prec emax x c) (SFsub prec emax x' c).
Proof.
  intros H. rewrite SFsub_add. apply SFadd_negated; [exact H | apply negated_opp].
Qed.

Lemma negated_sub_add x x' c :
  negated x x' -> negated (SFsub prec emax x c) (SFadd prec emax x' c).
Proof.
  intros H. rewrite SFsub_add. apply SFadd_negated; [exact H | apply negated_opp_l].
Qed.

End FloatArith.

Lemma mirrored_negated (x y : float) :
  mirrored x y -> negated (Prim2SF x) (Prim2SF y).
Proof.
  intros [-> | H].
  - left. apply opp_spec.
  - rewrite eqb_spec, opp_spec in H. now apply FloatArith.SFeqb_negated.
Qed.

(** The empirical boundaries mirror each other when both coordinates
    change sign, in binary64 arithmetic. *)
Lemma td_branches_mirrored (k f k' f' : float) :
  mirrored k k' -> mirrored f f' ->
  td_plus k' f' = td_minus k f /\ td_minus k' f' = td_plus k f.
Proof.
  intros Hk Hf.
  apply mirrored_negated in Hk. apply mirrored_negated in Hf.
  unfold td_plus, td_minus, PyFloat.lt, PyFloat.gt.
  rewrite !ltb_spec, !sub_spec, !add_spec, !mul_spec.
  unfold SF64add, SF64sub, SF64mul.
  change (Prim2SF 0) with (S754_zero false).
  assert (HA := FloatArith.SFadd_negated
                  (FloatArith.SFmul_negated (Prim2SF 84) Hf) Hk).
  assert (HB := FloatArith.SFadd_negated
                  (FloatArith.SFmul_negated (Prim2SF 210) Hf)
                  (FloatArith.SFmul_negated (Prim2SF 2.5) Hk)).
  destruct (FloatArith.negated_ltb_zero
              (FloatArith.negated_add_sub (Prim2SF 22) HA)) as [E1 _].
  destruct (FloatArith.negated_ltb_zero
              (FloatArith.negated_add_sub (Prim2SF 13) HB)) as [_ E2].
  destruct (FloatArith.negated_ltb_zero
              (FloatArith.negated_sub_add (Prim2SF 22) HA)) as [_ E3].
  destruct (FloatArith.negated_ltb_zero
              (FloatArith.negated_sub_add (Prim2SF 13) HB)) as [E4 _].
  now rewrite E1, E2, E3, E4.
Qed.

(** The tropical-depression mask is symmetric under a simultaneous
    change of sign of both axes, like the box: with valid bounds and
    coordinates that need no alignment it takes the same value at a bin
    (k, f) and at the bin (-k, -f).  The four boundaries are evaluated
    in binary64 arithmetic, which rounds a value and its negation
    alike. *)
Theorem td_mask_sign_flip
    (arithmetic_join : DataArray float -> DataArray float -> result (DataArray float))
    (w f : array) (fmin fmax kmin kmax : option float)
    (p q : position) :
  bounds_valid fmin fmax kmin kmax = true ->
  aligned w f = true ->
  mirrored (wavenumber_at w f p) (wavenumber_at w f q) ->
  mirrored (frequency_at w f p) (frequency_at w f q) ->
  exists b : bool,
    mask_value (td_mask arithmetic_join w f fmin fmax kmin kmax) p = Some b /\
    mask_value (td_mask arithmetic_join w f fmin fmax kmin kmax) q = Some b.
Proof.
  intros Hv Ha Hk Hf. apply first_violation_valid in Hv.
  rewrite !td_mask_value by assumption.
  destruct (td_branches_mirrored Hk Hf) as [Ep Em].
  rewrite (plus_branch_mirrored fmin fmax kmin kmax Hk Hf).
  rewrite (minus_branch_mirrored fmin fmax kmin kmax Hk Hf).
  rewrite Ep, Em.
  eexists; split; [reflexivity | now rewrite orb_comm].
Qed.

(** The default mask at the bins (-10, 0.25) and (10, -0.25). *)
Lemma td_mask_sign_flip_witness :
  exists b : bool,
    mask_value (td_mask Sample.arithmetic_join
                        (ndarray [(-10)%float; 10%float])
                        (ndarray [0.25%float; (-0.25)%float])
                        None None (Some (-20)%float) (Some (-6)%float))
               (bin 0 0) = Some b /\
    mask_value (td_mask Sample.arithmetic_join
                        (ndarray [(-10)%float; 10%float])
                        (ndarray [0.25%float; (-0.25)%float])
                        None None (Some (-20)%float) (Some (-6)%float))
               (bin 1 1) = Some b.
Proof.
  apply (@td_mask_sign_flip Sample.arithmetic_join
           (ndarray [(-10)%float; 10%float])
           (ndarray [0.25%float; (-0.25)%float])
           None None (Some (-20)%float) (Some (-6)%float) (bin 0 0) (bin 1 1)).
  - reflexivity.
  - reflexivity.
  - left; reflexivity.
  - left; reflexivity.
Defined.

(** A bin whose frequency is NaN is selected by no mask: every
    comparison with NaN is false, on both branches. *)
Theorem nan_frequency_unselected (g radius_earth beta : float)
    (wave_func : string -> option dispersion) (w f : array) (p : position) :
  frequency_at w f p = PrimFloat.nan ->
  (forall fmin fmax kmin kmax mask,
      kf_mask w f fmin fmax kmin kmax false = Return (Combined mask) ->
      values mask p = false)
  /\ (forall wave_type fmin fmax kmin kmax hmin hmax n mask,
      wave_mask g radius_earth beta wave_func w f wave_type
                fmin fmax kmin kmax hmin hmax n = Return mask ->
      values mask p = false)
  /\ (forall arithmetic_join fmin fmax kmin kmax mask,
      td_mask arithmetic_join w f fmin fmax kmin kmax = Return mask ->
      values mask p = false).
Proof.
  intros Hnan. apply unselected_when_closed; intros;
    unfold plus_branch, minus_branch, PyFloat.gt, PyFloat.lt;
    rewrite Hnan; reflexivity.
Qed.

Lemma nan_frequency_unselected_witness :
  exists mask,
    kf_mask Sample.wavenumber (ndarray [PrimFloat.nan; 0.25%float])
            None None (Some 1%float) None false
    = Return (Combined mask)
    /\ values mask (bin 2 0) = false.
Proof.
  eexists. split; [reflexivity|].
  apply (proj1 (@nan_frequency_unselected Sample.g Sample.radius_earth Sample.beta
                  sample_wave_func Sample.wavenumber
                  (ndarray [PrimFloat.nan; 0.25%float]) (bin 2 0) eq_refl)
               None None (Some 1%float) None).
  reflexivity.
Defined.

(* ================================================================== *)
(** ** The non-dimensionalizer at depth zero *)

Module FloatEdge.

Lemma SFmul_zero_r x z :
  zero_or_nan z -> zero_or_nan (SFmul prec emax x z).
Proof. destruct x, z; simpl; tauto. Qed.

Lemma SFmul_zero_l x z :
  zero_or_nan z -> zero_or_nan (SFmul prec emax z x).
Proof. destruct x, z; simpl; tauto. Qed.

Lemma SFsqrt_zero z : zero_or_nan z -> zero_or_nan (SFsqrt prec emax z).
Proof. destruct z as [s|s| |s m e]; simpl; tauto. Qed.

Lemma SFdiv_zero_l x z :
  zero_or_nan z -> zero_or_nan (SFdiv prec emax z x).
Proof. destruct x, z; simpl; tauto. Qed.

Lemma SFdiv_zero_r x z :
  zero_or_nan z -> infinite_or_nan (SFdiv prec emax x z).
Proof. destruct x, z; simpl; tauto. Qed.

Lemma eqb_zero (h : float) :
  PrimFloat.eqb h 0 = true -> zero_or_nan (Prim2SF h).
Proof.
  rewrite eqb_spec. change (Prim2SF 0) with (S754_zero false). unfold SFeqb.
  destruct (Prim2SF h) as [s|s| |s m e]; simpl; try tauto;
    destruct s; discriminate.
Qed.

Lemma vanishes_spec (x : float) :
  zero_or_nan (Prim2SF x) -> vanishes x = true.
Proof.
  unfold vanishes, PrimFloat.is_zero, PrimFloat.is_nan.
  rewrite !eqb_spec. change (Prim2SF PrimFloat.zero) with (S754_zero false).
  destruct (Prim2SF x) as [s|s| |s m e]; simpl; tauto.
Qed.

Lemma blows_up_spec (x : float) :
  infinite_or_nan (Prim2SF x) -> blows_up x = true.
Proof.
  unfold blows_up, PrimFloat.is_finite, PrimFloat.is_nan, PrimFloat.is_infinity.
  rewrite !eqb_spec, abs_spec.
  change (Prim2SF PrimFloat.infinity) with (S754_infinity false).
  destruct (Prim2SF x) as [s|s| |s m e]; simpl; try tauto.
  intros _. now rewrite orb_true_r.
Qed.

End FloatEdge.

(** No depth is rejected, and at depth zero the outputs degenerate: the
    phase speed is zero (or NaN), so every non-dimensional wavenumber is
    zero or NaN and every non-dimensional frequency is infinite or NaN,
    whatever the constants and the inputs. *)
Theorem nondim_k_omega_zero_depth (g radius_earth beta : float) (w f : array) (h : float) :
  PrimFloat.eqb h 0 = true ->
  array_all vanishes (fst (_nondim_k_omega g radius_earth beta w f h))
  /\ array_all blows_up (snd (_nondim_k_omega g radius_earth beta w f h)).
Proof.
  intros Hh. apply FloatEdge.eqb_zero in Hh.
  assert (Hc : zero_or_nan (Prim2SF (PrimFloat.sqrt (g * h)))).
  { rewrite sqrt_spec, mul_spec. apply FloatEdge.SFsqrt_zero.
    now apply FloatEdge.SFmul_zero_r. }
  assert (Hk : forall x,
             vanishes (x / radius_earth
                       * PrimFloat.sqrt (PrimFloat.sqrt (g * h) / beta))%float = true).
  { intros x. apply FloatEdge.vanishes_spec.
    rewrite mul_spec, sqrt_spec, (div_spec _ beta).
    apply FloatEdge.SFmul_zero_r, FloatEdge.SFsqrt_zero.
    now apply FloatEdge.SFdiv_zero_l. }
  assert (Ho : forall x,
             blows_up (x / PrimFloat.sqrt (beta * PrimFloat.sqrt (g * h)))%float = true).
  { intros x. apply FloatEdge.blows_up_spec.
    rewrite div_spec, sqrt_spec, (mul_spec beta).
    apply FloatEdge.SFdiv_zero_r, FloatEdge.SFsqrt_zero.
    now apply FloatEdge.SFmul_zero_r. }
  unfold _nondim_k_omega, array_mul, array_div. cbv zeta. split.
  - destruct w as [kv|kd]; simpl.
    + rewrite map_map. apply forallb_forall. intros y Hy.
      apply in_map_iff in Hy as (x & <- & _). apply Hk.
    + intros p. apply Hk.
  - destruct f as [fv|fd]; simpl.
    + rewrite !map_map. apply forallb_forall. intros y Hy.
      apply in_map_iff in Hy as (x & <- & _). apply Ho.
    + intros p. apply Ho.
Qed.

Lemma nondim_k_omega_zero_depth_witness :
  array_all vanishes
    (fst (_nondim_k_omega Sample.g Sample.radius_earth Sample.beta
            Sample.wavenumber Sample.frequency 0%float))
  /\ array_all blows_up
       (snd (_nondim_k_omega Sample.g Sample.radius_earth Sample.beta
               Sample.wavenumber Sample.frequency 0%float)).
Proof.
  exact (@nondim_k_omega_zero_depth Sample.g Sample.radius_earth Sample.beta
           Sample.wavenumber Sample.frequency 0%float eq_refl).
Defined.

(* ================================================================== *)
(** ** Assignments to rows and slices *)

Module NpFacts.

Import np.

Lemma broadcast_to_same (src : list float) (n : nat) :
  List.length src = n -> broadcast_to src n = Value src.
Proof. intros <-. unfold broadcast_to. now rewrite Nat.eqb_refl. Qed.

Lemma broadcast_to_length (src dst : list float) (n : nat) :
  broadcast_to src n = Value dst -> List.length dst = n.
Proof.
  unfold broadcast_to. destruct (Nat.eqb_spec (List.length src) n) as [E|E].
  - now intros [= <-].
  - destruct src as [|x [|y src]]; try discriminate.
    intros [= <-]. apply repeat_length.
Qed.

Lemma broadcast_to_mismatch (src : list float) (n : nat) :
  List.length src <> n -> List.length src <> 1 ->
  broadcast_to src n = Error cannot_broadcast.
Proof.
  intros Hn H1. unfold broadcast_to.
  destruct (Nat.eqb_spec (List.length src) n) as [E|E]; [congruence|].
  destruct src as [|x [|y src]]; simpl in *; congruence.
Qed.

Section Replace.

Context {A : Type}.

Lemma replace_nth_length (i : nat) (x : A) (l : list A) :
  i < List.length l -> List.length (replace_nth i x l) = List.length l.
Proof.
  intros H. unfold replace_nth.
  rewrite !length_app, length_firstn, length_skipn. simpl. lia.
Qed.

Lemma nth_replace_nth_eq (i : nat) (x d : A) (l : list A) :
  i < List.length l -> nth i (replace_nth i x l) d = x.
Proof.
  intros H. unfold replace_nth.
  rewrite app_nth2; rewrite length_firstn; [|lia].
  replace (i - Nat.min i (List.length l)) with 0 by lia. reflexivity.
Qed.

Lemma nth_replace_nth_neq (i j : nat) (x d : A) (l : list A) :
  i < List.length l -> j <> i -> nth j (replace_nth i x l) d = nth j l d.
Proof.
  intros H Hne. unfold replace_nth.
  destruct (Nat.lt_ge_cases j i) as [Hlt|Hge].
  - rewrite app_nth1 by (rewrite length_firstn; lia).
    rewrite nth_firstn. destruct (Nat.ltb_spec j i); [reflexivity | lia].
  - rewrite app_nth2 by (rewrite length_firstn; lia).
    rewrite length_firstn. replace (Nat.min i (List.length l)) with i by lia.
    destruct (j - i) as [|m] eqn:E; [lia|].
    change (nth (S m) ([x] ++ skipn (S i) l) d) with (nth m (skipn (S i) l) d).
    rewrite nth_skipn. f_equal. lia.
Qed.

Lemma Forall_replace_nth (P : A -> Prop) (i : nat) (x : A) (l : list A) :
  Forall P l -> P x -> Forall P (replace_nth i x l).
Proof.
  intros Hl Hx. unfold replace_nth.
  assert (H1 := Hl). rewrite <- (firstn_skipn i l) in H1.
  assert (H2 := Hl). rewrite <- (firstn_skipn (S i) l) in H2.
  apply Forall_app in H1 as [H1 _]. apply Forall_app in H2 as [_ H2].
  apply Forall_app. split; [exact H1|].
  apply Forall_app. split; [now constructor | exact H2].
Qed.

End Replace.

Lemma set_row_in_bounds (func : list (list float)) (i : nat) (row : list float) :
  i < List.length func ->
  List.length row = List.length (nth i func []) ->
  set_row func (Z.of_nat i) row = Value (replace_nth i row func).
Proof.
  intros Hi Hlen. unfold set_row.
  destruct (Z.ltb_spec (Z.of_nat i) (- Z.of_nat (List.length func))); [lia|].
  destruct (Z.leb_spec (Z.of_nat (List.length func)) (Z.of_nat i)); [lia|].
  destruct (Z.ltb_spec (Z.of_nat i) 0); [lia|].
  simpl. rewrite Nat2Z.id, broadcast_to_same by assumption. reflexivity.
Qed.

Lemma skipn_repeat {A : Type} (x : A) (k n : nat) :
  skipn k (repeat x n) = repeat x (n - k).
Proof.
  revert n; induction k as [|k IH]; intros n.
  - now rewrite Nat.sub_0_r.
  - destruct n as [|n]; [reflexivity|]. simpl. apply IH.
Qed.

Lemma range_length (n : Z) : List.length (range n) = Z.to_nat n.
Proof. unfold range. now rewrite length_map, length_seq. Qed.

(** Slices that start at the beginning or run to the end. *)
Lemma get_slice_prefix (l : list float) (h : Z) :
  (0 <= h)%Z -> get_slice l (Some 0%Z) (Some h) = firstn (Z.to_nat h) l.
Proof.
  intros Hh. unfold get_slice, slice_bounds, slice_index.
  destruct (Z.ltb_spec 0 0); [lia|]. destruct (Z.ltb_spec h 0); [lia|].
  replace (Z.to_nat (Z.min 0 (Z.of_nat (List.length l)))) with 0 by lia.
  simpl skipn.
  destruct (Z.le_gt_cases h (Z.of_nat (List.length l))).
  - f_equal. lia.
  - rewrite !firstn_all2 by lia. reflexivity.
Qed.

Lemma get_slice_suffix (l : list float) (h : Z) :
  (0 <= h)%Z -> get_slice l (Some h) None = skipn (Z.to_nat h) l.
Proof.
  intros Hh. unfold get_slice, slice_bounds, slice_index.
  destruct (Z.ltb_spec h 0); [lia|].
  destruct (Z.le_gt_cases h (Z.of_nat (List.length l))).
  - replace (Z.to_nat (Z.min h (Z.of_nat (List.length l)))) with (Z.to_nat h) by lia.
    apply firstn_all2. rewrite length_skipn. lia.
  - replace (Z.to_nat (Z.min h (Z.of_nat (List.length l))))
      with (List.length l) by lia.
    rewrite !skipn_all2 by lia. apply firstn_nil.
Qed.

Lemma set_slice_prefix (l src : list float) (h : Z) :
  (0 <= h)%Z ->
  set_slice l (Some 0%Z) (Some h) src
  = and_then (broadcast_to src (Nat.min (Z.to_nat h) (List.length l)))
             (fun src => Value (src ++ skipn (Nat.min (Z.to_nat h) (List.length l)) l)).
Proof.
  intros Hh. unfold set_slice, slice_bounds, slice_index.
  destruct (Z.ltb_spec 0 0); [lia|]. destruct (Z.ltb_spec h 0); [lia|].
  replace (Z.to_nat (Z.min 0 (Z.of_nat (List.length l)))) with 0 by lia.
  replace (Z.to_nat (Z.min h (Z.of_nat (List.length l))
                     - Z.min 0 (Z.of_nat (List.length l))))
    with (Nat.min (Z.to_nat h) (List.length l)) by lia.
  reflexivity.
Qed.

Lemma set_slice_suffix (l src : list float) (s : Z) :
  set_slice l (Some s) None src
  = and_then (broadcast_to src
                (List.length l - Z.to_nat (slice_index (Z.of_nat (List.length l)) s)))
             (fun src =>
                Value (firstn (Z.to_nat (slice_index (Z.of_nat (List.length l)) s)) l
                       ++ src)).
Proof.
  unfold set_slice, slice_bounds.
  set (a := slice_index (Z.of_nat (List.length l)) s).
  assert (Ha : (0 <= a <= Z.of_nat (List.length l))%Z).
  { unfold a, slice_index. destruct (Z.ltb_spec s 0); lia. }
  replace (Z.to_nat (Z.of_nat (List.length l) - a))
    with (List.length l - Z.to_nat a) by lia.
  destruct (broadcast_to src (List.length l - Z.to_nat a)); [|reflexivity].
  simpl. rewrite skipn_all2 by lia. now rewrite app_nil_r.
Qed.

Lemma set_slice_length (l src out : list float) (start stop : option Z) :
  set_slice l start stop src = Value out -> List.length out = List.length l.
Proof.
  unfold set_slice.
  destruct (slice_bounds (List.length l) start stop) as [a n] eqn:E.
  assert (Hb : a + n <= List.length l).
  { unfold slice_bounds, slice_index in E. injection E as <- <-.
    destruct start as [i|], stop as [j|];
      repeat match goal with
             | |- context [(?x <? 0)%Z] => destruct (Z.ltb_spec x 0)
             end; lia. }
  destruct (broadcast_to src n) as [src'|] eqn:Hs; [|discriminate].
  apply broadcast_to_length in Hs. simpl. intros [= <-].
  rewrite !length_app, length_firstn, length_skipn. lia.
Qed.

End NpFacts.

(* ================================================================== *)
(** ** The regression matrix *)

Section Harmonic.

Variables np_sin np_cos : float -> float.
Variables (n : Z) (period : float) (num_fs : Z).

Let time := harmonic_time n period.
Let sin_row (i : Z) : list float :=
  List.map (fun t => np_sin (PyFloat.of_int i * t)%float) time.
Let cos_row (i : Z) : list float :=
  List.map (fun t => np_cos (PyFloat.of_int i * t)%float) time.
Let body (func : list (list float)) (i : Z) : np.outcome (list (list float)) :=
  (func <- np.set_row func (2 * i + 1) (sin_row i) ;;
   np.set_row func ((i + 1) * 2) (cos_row i))%outcome.

(** What holds of the matrix when the harmonics below [k] are written. *)
Let filled (k : nat) (func : list (list float)) : Prop :=
  List.length func = Z.to_nat (2 * num_fs + 1)
  /\ Forall (fun row => List.length row = Z.to_nat n) func
  /\ nth 0 func [] = repeat 1%float (Z.to_nat n)
  /\ forall i, i < k ->
       nth (2 * i + 1) func [] = sin_row (Z.of_nat i)
       /\ nth (2 * i + 2) func [] = cos_row (Z.of_nat i).

Lemma harmonic_row_length (i : Z) :
  List.length (sin_row i) = Z.to_nat n /\ List.length (cos_row i) = Z.to_nat n.
Proof.
  unfold sin_row, cos_row, time, harmonic_time.
  now rewrite !length_map, NpFacts.range_length.
Qed.

Lemma harmonic_step (k : nat) (func : list (list float)) :
  (Z.of_nat k < num_fs)%Z -> filled k func ->
  exists func', body func (Z.of_nat k) = np.Value func' /\ filled (S k) func'.
Proof.
  intros Hk (Hlen & Hrows & H0 & Hdone).
  destruct (harmonic_row_length (Z.of_nat k)) as [Hs Hc].
  assert (Hrow : forall j, j < List.length func ->
                           List.length (nth j func []) = Z.to_nat n).
  { intros j Hj. rewrite Forall_forall in Hrows. apply Hrows. now apply nth_In. }
  unfold body.
  replace (2 * Z.of_nat k + 1)%Z with (Z.of_nat (2 * k + 1)) by lia.
  replace ((Z.of_nat k + 1) * 2)%Z with (Z.of_nat (2 * k + 2)) by lia.
  rewrite NpFacts.set_row_in_bounds by (try rewrite Hrow; lia).
  cbn [np.and_then].
  rewrite NpFacts.set_row_in_bounds;
    rewrite ?NpFacts.replace_nth_length by lia; try lia.
  2:{ rewrite NpFacts.nth_replace_nth_neq by lia. rewrite Hrow; lia. }
  eexists. split; [reflexivity|].
  repeat split.
  - rewrite !NpFacts.replace_nth_length; rewrite ?NpFacts.replace_nth_length; lia.
  - apply NpFacts.Forall_replace_nth; [|exact Hc].
    apply NpFacts.Forall_replace_nth; [exact Hrows | exact Hs].
  - rewrite !NpFacts.nth_replace_nth_neq;
      rewrite ?NpFacts.replace_nth_length; try lia. exact H0.
  - destruct (Nat.eq_dec i k) as [-> | Hne].
    + rewrite NpFacts.nth_replace_nth_neq
        by (rewrite ?NpFacts.replace_nth_length; lia).
      apply NpFacts.nth_replace_nth_eq. lia.
    + rewrite !NpFacts.nth_replace_nth_neq;
        rewrite ?NpFacts.replace_nth_length; try lia.
      apply Hdone. lia.
  - destruct (Nat.eq_dec i k) as [-> | Hne].
    + apply NpFacts.nth_replace_nth_eq. rewrite NpFacts.replace_nth_length; lia.
    + rewrite !NpFacts.nth_replace_nth_neq;
        rewrite ?NpFacts.replace_nth_length; try lia.
      apply Hdone. lia.
Qed.

Lemma harmonic_loop (c k : nat) (func : list (list float)) :
  Z.of_nat (k + c) = num_fs -> filled k func ->
  exists func',
    np.for_each (List.map Z.of_nat (seq k c)) body func = np.Value func'
    /\ filled (k + c) func'.
Proof.
  revert k func. induction c as [|c IH]; intros k func Hk Hf.
  - exists func. rewrite Nat.add_0_r. now split.
  - destruct (@harmonic_step k func) as (func1 & E1 & Hf1); [lia | exact Hf |].
    destruct (IH (S k) func1) as (func2 & E2 & Hf2); [lia | exact Hf1 |].
    exists func2. simpl. rewrite E1. cbn [np.and_then]. rewrite E2.
    split; [reflexivity|]. now replace (k + S c) with (S k + c) by lia.
Qed.

(** For [n >= 0] and [num_fs >= 0], [harmonic_func] returns a matrix of
    [2 * num_fs + 1] rows of [n] columns and no assignment falls outside
    it: row 0 is all ones, and for each [i] below [num_fs] row
    [2 * i + 1] is the sine and row [2 * i + 2] the cosine of
    [i * time].  The harmonics are numbered from 0, so rows 1 and 2 hold
    the sine and the cosine of an array of zeros. *)
Theorem harmonic_func_rows :
  (0 <= n)%Z -> (0 <= num_fs)%Z ->
  exists func,
    harmonic_func np_sin np_cos n period num_fs = np.Value func
    /\ List.length func = Z.to_nat (2 * num_fs + 1)
    /\ Forall (fun row => List.length row = Z.to_nat n) func
    /\ nth 0 func [] = repeat 1%float (Z.to_nat n)
    /\ forall i, (0 <= i < num_fs)%Z ->
         nth (Z.to_nat (2 * i + 1)) func []
         = List.map (fun t => np_sin (PyFloat.of_int i * t)%float)
                    (harmonic_time n period)
         /\ nth (Z.to_nat (2 * i + 2)) func []
            = List.map (fun t => np_cos (PyFloat.of_int i * t)%float)
                       (harmonic_time n period).
Proof.
  intros Hn Hf. unfold harmonic_func, np.zeros2, np.ones.
  destruct (Z.ltb_spec (num_fs * 2 + 1) 0) as [Hlt|_]; [lia|].
  destruct (Z.ltb_spec n 0) as [Hlt|_]; [lia|]. cbn [orb np.and_then].
  set (zeros := repeat (repeat 0%float (Z.to_nat n)) (Z.to_nat (num_fs * 2 + 1))).
  assert (Hz : List.length zeros = Z.to_nat (2 * num_fs + 1)).
  { unfold zeros. rewrite repeat_length. f_equal. lia. }
  assert (Hzr : Forall (fun row => List.length row = Z.to_nat n) zeros).
  { apply Forall_forall. intros row Hin. apply repeat_spec in Hin as ->.
    apply repeat_length. }
  change 0%Z with (Z.of_nat 0).
  rewrite NpFacts.set_row_in_bounds.
  2:{ lia. }
  2:{ rewrite repeat_length. rewrite Forall_forall in Hzr. symmetry.
      apply Hzr, nth_In. lia. }
  cbn [np.and_then].
  destruct (@harmonic_loop (Z.to_nat num_fs) 0
              (np.replace_nth 0 (repeat 1%float (Z.to_nat n)) zeros))
    as (func & E & Hlen & Hrows & Hone & Hdone).
  - lia.
  - split; [|split; [|split]].
    + rewrite NpFacts.replace_nth_length; lia.
    + apply NpFacts.Forall_replace_nth; [exact Hzr | apply repeat_length].
    + apply NpFacts.nth_replace_nth_eq. lia.
    + intros i Hi. lia.
  - exists func. unfold np.range. fold time. split; [exact E|].
    split; [exact Hlen | split; [exact Hrows | split; [exact Hone|]]].
    intros i Hi. split.
    + destruct (Hdone (Z.to_nat i)) as [Hs _]; [lia|].
      replace (Z.to_nat (2 * i + 1)) with (2 * Z.to_nat i + 1) by lia.
      rewrite Hs. unfold sin_row. now rewrite Z2Nat.id by lia.
    + destruct (Hdone (Z.to_nat i)) as [_ Hc]; [lia|].
      replace (Z.to_nat (2 * i + 2)) with (2 * Z.to_nat i + 2) by lia.
      rewrite Hc. unfold cos_row. now rewrite Z2Nat.id by lia.
Qed.

(** A negative [n] or [num_fs] is refused when the matrix is
    allocated. *)
Theorem harmonic_func_negative :
  (n < 0 \/ num_fs < 0)%Z ->
  harmonic_func np_sin np_cos n period num_fs = np.Error np.negative_dimensions.
Proof.
  intros H. unfold harmonic_func, np.zeros2.
  destruct (Z.ltb_spec (num_fs * 2 + 1) 0), (Z.ltb_spec n 0);
    try reflexivity; lia.
Qed.

End Harmonic.

Lemma harmonic_func_rows_witness :
  exists func,
    harmonic_func_default sample_sin sample_cos 3 = np.Value func
    /\ List.length func = 9
    /\ Forall (fun row => List.length row = 3) func
    /\ nth 0 func [] = [1; 1; 1]%float.
Proof.
  destruct (@harmonic_func_rows sample_sin sample_cos 3 365%float 4)
    as (func & E & Hlen & Hrows & H0 & _); [lia | lia |].
  exists func. repeat split; assumption.
Defined.

Lemma harmonic_func_negative_witness :
  harmonic_func sample_sin sample_cos (-1) 365%float 4
  = np.Error np.negative_dimensions.
Proof.
  apply harmonic_func_negative. left. lia.
Defined.

(* ================================================================== *)
(** ** The split cosine bell taper *)

Section Taper.

Variable np_hanning : Z -> list float.

(** [np.hanning(M)] has [M] points, none when [M < 1]. *)
Hypothesis hanning_length : forall M, List.length (np_hanning M) = Z.to_nat M.

(** Whenever [split_hann_taper] returns, it returns one weight per
    point of the series. *)
Theorem split_hann_taper_length (series_length : Z) (fraction : float)
    (weights : list float) :
  split_hann_taper np_hanning series_length fraction = np.Value weights ->
  List.length weights = Z.to_nat series_length.
Proof.
  unfold split_hann_taper.
  destruct (np.int _) as [npts|]; [|discriminate]. cbn [np.and_then].
  unfold np.ones. destruct (Z.ltb_spec series_length 0); [discriminate|].
  cbn [np.and_then].
  destruct (np.set_slice (repeat 1%float (Z.to_nat series_length)) _ _ _)
    as [s1|] eqn:E1; [|discriminate].
  cbn [np.and_then].
  destruct (np.set_slice s1 _ _ _) as [s2|] eqn:E2; [|discriminate].
  cbn [np.and_then]. intros [= <-].
  apply NpFacts.set_slice_length in E1, E2.
  rewrite E2, E1. apply repeat_length.
Qed.

(** A taper of fewer than three points cannot be built: when the
    rounded [fraction * series_length] is 0, 1 or 2 (a fraction of 0 in
    particular) and the series is not empty, the assignment of an empty
    slice of the window fails, and no weights are returned. *)
Theorem split_hann_taper_too_short (series_length : Z) (fraction : float) (npts : Z) :
  np.int (np.rint (fraction * PyFloat.of_int series_length)%float) = np.Value npts ->
  (0 <= npts <= 2)%Z -> (1 <= series_length)%Z ->
  split_hann_taper np_hanning series_length fraction
  = np.Error np.cannot_broadcast.
Proof.
  intros taper_size Hn HL. unfold split_hann_taper. rewrite taper_size.
  clear taper_size. cbn [np.and_then].
  unfold np.ones. destruct (Z.ltb_spec series_length 0); [lia|].
  cbn [np.and_then].
  assert (Hlen := hanning_length npts).
  remember (np_hanning npts) as taper eqn:Ht. clear Ht.
  remember (Z.to_nat series_length) as L eqn:HLn.
  assert (HL1 : 1 <= L) by lia. clear HLn.
  assert (Hcases : (npts = 0 \/ npts = 1 \/ npts = 2)%Z) by lia.
  destruct Hcases as [-> | [-> | ->]];
    change (0 / 2 + 1)%Z with 1%Z; change (1 / 2 + 1)%Z with 1%Z;
    change (2 / 2 + 1)%Z with 2%Z;
    change (- (0) / 2 + 1)%Z with 1%Z; change (- (1) / 2 + 1)%Z with 0%Z;
    change (- (2) / 2 + 1)%Z with 0%Z;
    rewrite NpFacts.set_slice_prefix, NpFacts.get_slice_prefix by lia;
    rewrite repeat_length;
    change (Z.to_nat 1) with 1; change (Z.to_nat 2) with 2.
  - (* no point: the first assignment fails *)
    destruct taper; [|discriminate].
    replace (Nat.min 1 L) with 1 by lia.
    reflexivity.
  - (* one point: the second assignment fails *)
    destruct taper as [|x [|y taper]]; try discriminate.
    replace (Nat.min 1 L) with 1 by lia.
    cbn [firstn np.broadcast_to List.length Nat.eqb np.and_then].
    rewrite NpFacts.set_slice_suffix, NpFacts.get_slice_suffix by lia.
    rewrite length_app, length_skipn, repeat_length.
    cbn [List.length Z.to_nat skipn].
    replace (1 + (L - 1)) with L by lia.
    unfold np.slice_index.
    destruct (Z.ltb_spec 0 0) as [Hlt|_]; [lia|].
    replace (L - Z.to_nat (Z.min 0 (Z.of_nat L))) with L by lia.
    rewrite NpFacts.broadcast_to_mismatch; [reflexivity | simpl; lia | simpl; lia].
  - (* two points: one of the two assignments fails *)
    destruct taper as [|x [|y [|z taper]]]; try discriminate.
    cbn [firstn].
    destruct (Nat.eq_dec L 1) as [-> | HL2].
    + reflexivity.
    + replace (Nat.min 2 L) with 2 by lia.
      cbn [np.broadcast_to List.length Nat.eqb np.and_then].
      rewrite NpFacts.set_slice_suffix, NpFacts.get_slice_suffix by lia.
      rewrite length_app, length_skipn, repeat_length.
      cbn [List.length Z.to_nat skipn].
      replace (2 + (L - 2)) with L by lia.
      unfold np.slice_index.
      destruct (Z.ltb_spec 0 0) as [Hlt|_]; [lia|].
      replace (L - Z.to_nat (Z.min 0 (Z.of_nat L))) with L by lia.
      rewrite NpFacts.broadcast_to_mismatch; [reflexivity | simpl; lia | simpl; lia].
Qed.

(** With a taper of at least three points that is no longer than the
    series, the weights are the window cut after its first
    [npts // 2 + 1] points, with ones in between: the series keeps its
    middle and is tapered at both ends.  When the taper is as long as
    the series the weights are the window itself. *)
Theorem split_hann_taper_weights (series_length : Z) (fraction : float) (npts : Z) :
  np.int (np.rint (fraction * PyFloat.of_int series_length)%float) = np.Value npts ->
  (3 <= npts <= series_length)%Z ->
  split_hann_taper np_hanning series_length fraction
  = np.Value (firstn (Z.to_nat (npts / 2 + 1)) (np_hanning npts)
              ++ repeat 1%float (Z.to_nat (series_length - npts))
              ++ skipn (Z.to_nat (npts / 2 + 1)) (np_hanning npts)).
Proof.
  intros taper_size Hn. unfold split_hann_taper. rewrite taper_size.
  clear taper_size. cbn [np.and_then].
  unfold np.ones. destruct (Z.ltb_spec series_length 0); [lia|].
  cbn [np.and_then].
  assert (Hlen := hanning_length npts).
  remember (np_hanning npts) as taper eqn:Ht. clear Ht.
  assert (Hh : (0 <= npts / 2 + 1)%Z) by (apply Z.add_nonneg_nonneg; [apply Z.div_pos|]; lia).
  assert (Hdiv : (2 * (npts / 2) <= npts < 2 * (npts / 2) + 2)%Z).
  { pose proof (Z.div_mod npts 2). pose proof (Z.mod_pos_bound npts 2). lia. }
  assert (Hneg : (- npts / 2 + 1 = - (npts - npts / 2 - 1))%Z).
  { pose proof (Z.div_mod npts 2). pose proof (Z.mod_pos_bound npts 2).
    pose proof (Z.div_mod (- npts) 2). pose proof (Z.mod_pos_bound (- npts) 2).
    lia. }
  rewrite NpFacts.set_slice_prefix, NpFacts.get_slice_prefix by lia.
  rewrite repeat_length.
  set (h := Z.to_nat (npts / 2 + 1)) in *.
  set (L := Z.to_nat series_length) in *.
  assert (HhL : h <= L) by lia.
  assert (HhN : h <= List.length taper) by lia.
  replace (Nat.min h L) with h by lia.
  rewrite NpFacts.broadcast_to_same by (rewrite length_firstn; lia).
  cbn [np.and_then].
  rewrite NpFacts.set_slice_suffix, NpFacts.get_slice_suffix by lia.
  fold h.
  rewrite length_app, length_firstn, length_skipn, repeat_length.
  replace (Nat.min h (List.length taper) + (L - h)) with L by lia.
  rewrite Hneg. unfold np.slice_index.
  destruct (Z.ltb_spec (- (npts - npts / 2 - 1)) 0) as [_|Hge]; [|lia].
  set (t := List.length taper - h).
  replace (Z.to_nat (Z.max (- (npts - npts / 2 - 1) + Z.of_nat L) 0))
    with (L - t) by lia.
  rewrite NpFacts.broadcast_to_same by (rewrite length_skipn; lia).
  cbn [np.and_then]. f_equal.
  rewrite NpFacts.skipn_repeat.
  replace (L - t) with (List.length (firstn h taper) + (L - t - h))
    by (rewrite length_firstn; lia).
  rewrite firstn_app_2.
  rewrite <- app_assoc. f_equal. f_equal.
  replace (L - h) with ((L - t - h) + t) by lia.
  rewrite repeat_app, firstn_app, repeat_length.
  rewrite firstn_all2 by (rewrite repeat_length; lia).
  replace (L - t - h - (L - t - h)) with 0 by lia.
  rewrite firstn_O, app_nil_r. f_equal. lia.
Qed.

(** A taper whose first half does not fit in the series cannot be
    built either: with at least three points and
    [series_length < npts // 2 + 1] the first assignment fails. *)
Theorem split_hann_taper_too_long (series_length : Z) (fraction : float) (npts : Z) :
  np.int (np.rint (fraction * PyFloat.of_int series_length)%float) = np.Value npts ->
  (3 <= npts)%Z -> (0 <= series_length < npts / 2 + 1)%Z ->
  split_hann_taper np_hanning series_length fraction
  = np.Error np.cannot_broadcast.
Proof.
  intros taper_size Hn HL. unfold split_hann_taper. rewrite taper_size.
  clear taper_size. cbn [np.and_then].
  unfold np.ones. destruct (Z.ltb_spec series_length 0); [lia|].
  cbn [np.and_then].
  assert (Hlen := hanning_length npts).
  assert (Hdiv : (2 * (npts / 2) <= npts < 2 * (npts / 2) + 2)%Z).
  { pose proof (Z.div_mod npts 2). pose proof (Z.mod_pos_bound npts 2). lia. }
  rewrite NpFacts.set_slice_prefix, NpFacts.get_slice_prefix by lia.
  rewrite repeat_length.
  rewrite NpFacts.broadcast_to_mismatch; [reflexivity | |];
    rewrite length_firstn; lia.
Qed.

End Taper.

Lemma sample_window_length (M : Z) : List.length (sample_window M) = Z.to_nat M.
Proof. unfold sample_window. now rewrite length_map, NpFacts.range_length. Qed.

(** Ten points tapered over a half: a window of five points. *)
Lemma split_hann_taper_length_witness :
  exists weights,
    split_hann_taper sample_window 10 0.5%float = np.Value weights
    /\ List.length weights = 10.
Proof.
  eexists. split; [reflexivity|].
  apply (@split_hann_taper_length sample_window 10 0.5%float). reflexivity.
Defined.

(** A fraction of zero. *)
Lemma split_hann_taper_too_short_witness :
  split_hann_taper sample_window 10 0%float = np.Error np.cannot_broadcast.
Proof.
  apply (@split_hann_taper_too_short sample_window sample_window_length
           10 0%float 0); [reflexivity | lia | lia].
Defined.

Lemma split_hann_taper_weights_witness :
  split_hann_taper sample_window 10 0.5%float
  = np.Value [0; 3; 4; 1; 1; 1; 1; 1; 3; 0]%float.
Proof.
  apply (@split_hann_taper_weights sample_window sample_window_length
           10 0.5%float 5); [reflexivity | lia].
Defined.

(** Four points and a fraction of two: a window of eight points. *)
Lemma split_hann_taper_too_long_witness :
  split_hann_taper sample_window 4 2%float = np.Error np.cannot_broadcast.
Proof.
  apply (@split_hann_taper_too_long sample_window sample_window_length
           4 2%float 8); [reflexivity | lia | split; [lia | reflexivity]].
Defined.

(* ================================================================== *)
(** ** Which error is raised *)

(** When several constraints are violated [kf_mask] reports the first
    in the order of its checks: the sign of [fmin], then the sign of
    [fmax], then [fmin < fmax], then [kmin < kmax]. *)
Theorem kf_mask_error_precedence (w f : array) (fmin fmax kmin kmax : option float)
    (return_individual : bool) :
  (positive fmin = false ->
   kf_mask w f fmin fmax kmin kmax return_individual
   = Raise (AssertionError msg_fmin))
  /\ (positive fmin = true -> positive fmax = false ->
      kf_mask w f fmin fmax kmin kmax return_individual
      = Raise (AssertionError msg_fmax))
  /\ (positive fmin = true -> positive fmax = true -> ordered fmin fmax = false ->
      kf_mask w f fmin fmax kmin kmax return_individual
      = Raise (AssertionError msg_fmin_fmax))
  /\ (positive fmin = true -> positive fmax = true -> ordered fmin fmax = true ->
      ordered kmin kmax = false ->
      kf_mask w f fmin fmax kmin kmax return_individual
      = Raise (AssertionError msg_kmin_kmax)).
Proof.
  rewrite kf_mask_eq. unfold first_violation.
  repeat split; intros;
    repeat match goal with
           | H : _ = _ |- _ => rewrite H; clear H
           end; reflexivity.
Qed.

(** Both a non-positive [fmin] and [fmin >= fmax]: the error is the one
    of [fmin]. *)
Lemma kf_mask_error_precedence_witness :
  kf_mask Sample.wavenumber Sample.frequency
          (Some (-1)%float) (Some (-2)%float) (Some 5%float) (Some 1%float) false
  = Raise (AssertionError msg_fmin).
Proof.
  exact (proj1 (kf_mask_error_precedence Sample.wavenumber Sample.frequency
                  (Some (-1)%float) (Some (-2)%float) (Some 5%float) (Some 1%float)
                  false) eq_refl).
Defined.

(** [td_mask] checks nothing of its own: it raises exactly the error
    that [kf_mask] raises for the same bounds, and where [kf_mask]
    returns the branch lists it returns a mask, on coordinates that
    need no alignment. *)
Theorem td_mask_fails_with_box
    (arithmetic_join : DataArray float -> DataArray float -> result (DataArray float))
    (w f : array) (fmin fmax kmin kmax : option float) :
  match kf_mask w f fmin fmax kmin kmax true with
  | Raise e => td_mask arithmetic_join w f fmin fmax kmin kmax = Raise e
  | Return _ =>
      aligned w f = true ->
      exists mask, td_mask arithmetic_join w f fmin fmax kmin kmax = Return mask
  end.
Proof.
  rewrite kf_mask_eq.
  destruct (first_violation fmin fmax kmin kmax) eqn:Hv.
  - rewrite td_mask_eq, Hv. reflexivity.
  - cbv zeta. intros Ha.
    assert (H := @td_mask_value arithmetic_join w f fmin fmax kmin kmax (bin 0 0) Hv Ha).
    destruct (td_mask arithmetic_join w f fmin fmax kmin kmax); [eauto | discriminate].
Qed.

(** The default call on the sample grid returns a mask. *)
Lemma td_mask_fails_with_box_witness :
  exists mask,
    td_mask Sample.arithmetic_join Sample.wavenumber Sample.frequency
            None None (Some (-20)%float) (Some (-6)%float) = Return mask.
Proof.
  exact (td_mask_fails_with_box Sample.arithmetic_join
           Sample.wavenumber Sample.frequency
           None None (Some (-20)%float) (Some (-6)%float) eq_refl).
Defined.
